(** * memes-api: the token service and the meme selector

    A shallow embedding of [services/token_service.go], [models], the
    tables of [db/schema.sql] and, of [main.go], [generateMeme],
    [calculateDistance], the four handlers and the route /memes, followed
    by the properties that were checked on it.

    Conventions.
    - Go's [int] is a 64-bit two's complement integer: it is a [Z] and the
      one run-time subtraction of the service is written with its
      wrap-around ([int_sub]).
    - A Go function returning [error] returns [option error] ([None] is
      [nil]); one returning [(int, error)] returns a pair, as in Go.
    - The two stores (PostgreSQL through pgx, Redis through go-redis), the
      clock, the refresh channel, the spawned goroutines and standard output
      are fields of one [World]; every method of the service is a function
      in the state monad [M] over it.
    - Transport failures of the stores are scripted: each call to a store
      consumes one boolean of the store's fault script, and a call that
      fails has had no effect on the store.
    - The methods are run one after the other, so [cacheMutex], which every
      read and write of the cache takes and releases around its single call
      to Redis, has no effect here and is left out; a goroutine started by
      [DeductTokens] and the worker of [NewTokenService] take their steps
      when [run_goroutines] and [backgroundCacheRefresh] are called. *)

From Stdlib Require Import ZArith String List Bool Lia.
From Stdlib Require Import SpecFloat.
From stdpp Require Import base gmap strings list.

Open Scope Z_scope.

(** ** Go integers *)

Definition int_min : Z := - 2 ^ 63.
Definition int_max : Z := 2 ^ 63 - 1.
Definition int_ok (z : Z) : bool := (int_min <=? z) && (z <=? int_max).
Definition int_wrap (z : Z) : Z := (z + 2 ^ 63) mod 2 ^ 64 - 2 ^ 63.
Definition int_sub (a b : Z) : Z := int_wrap (a - b).

(** PostgreSQL's INTEGER (int4), the type of [token_transactions.amount]. *)
Definition int4_min : Z := - 2 ^ 31.
Definition int4_max : Z := 2 ^ 31 - 1.
Definition int4_ok (z : Z) : bool := (int4_min <=? z) && (z <=? int4_max).

(** ** package models *)

Module models.

Record Client := mkClient {
  Client_ID : Z;
  Client_AuthToken : string;
  Client_CreatedAt : Z
}.

Record TokenTransaction := mkTokenTransaction {
  ID : Z;
  ClientID : Z;
  Amount : Z;
  TransactionType : string;
  CreatedAt : Z
}.

Record TokenBalance := mkTokenBalance {
  TokenBalance_ClientID : Z;
  Balance : Z
}.

End models.

(** ** package services *)

Module services.
Import models.

Definition TokenCost : Z := 1.
Definition RedisKeyPrefix : string := "token_balance:".
(** [24 * time.Hour], a [time.Duration] in nanoseconds. *)
Definition time_Hour : Z := 3600 * 1000000000.
Definition RedisCacheTTL : Z := 24 * time_Hour.
Definition CacheRefreshBatch : Z := 100.

(** The errors a method of the service can return: the two package
    variables, go-redis's [redis.Nil], and the failures of the two
    clients. *)
Inductive error :=
  | ErrInsufficientTokens
  | ErrInvalidToken
  | redis_Nil
  | redis_unavailable
  | strconv_ErrRange
  | pgx_unavailable
  | pgx_out_of_range
  | pgx_value_too_long
  | pgx_check_violation
  | pgx_cardinality_violation.

#[global] Instance error_eq_dec : EqDecision error.
Proof. solve_decision. Defined.

Definition error_Error (e : error) : string :=
  match e with
  | ErrInsufficientTokens => "insufficient tokens"
  | ErrInvalidToken => "invalid auth token"
  | redis_Nil => "redis: nil"
  | redis_unavailable => "redis: connection refused"
  | strconv_ErrRange => "strconv.Atoi: value out of range"
  | pgx_unavailable => "pgx: connection refused"
  | pgx_out_of_range => "ERROR: integer out of range (SQLSTATE 22003)"
  | pgx_value_too_long => "ERROR: value too long for type character varying(10) (SQLSTATE 22001)"
  | pgx_check_violation => "ERROR: new row violates check constraint (SQLSTATE 23514)"
  | pgx_cardinality_violation => "ERROR: more than one row returned by a subquery used as an expression (SQLSTATE 21000)"
  end.

(** *** The ledger: the tables of db/schema.sql *)

Record Database := mkDatabase {
  clients : list Client;
  token_transactions : list TokenTransaction;
  token_transactions_id_seq : Z
}.

(** [SELECT id FROM clients WHERE auth_token = $1] *)
Definition select_client_ids (d : Database) (authToken : string) : list Z :=
  map Client_ID
      (filter (fun c => Client_AuthToken c = authToken) (clients d)).

(** The CHECK and VARCHAR(10) constraints on [transaction_type]. *)
Definition check_transaction_type (ty : string) : option error :=
  if bool_decide (10 < Z.of_nat (String.length ty)) then Some pgx_value_too_long
  else if bool_decide (ty = "PURCHASE") || bool_decide (ty = "USAGE") then None
  else Some pgx_check_violation.

Fixpoint insert_rows (ids : list Z) (amount : Z) (ty : string) (now : Z)
    (seq : Z) (rows : list TokenTransaction) : list TokenTransaction * Z :=
  match ids with
  | [] => (rows, seq)
  | id :: ids' =>
      insert_rows ids' amount ty now (seq + 1)
        (rows ++ [mkTokenTransaction (seq + 1) id amount ty now])
  end.

(** [INSERT INTO token_transactions (client_id, amount, transaction_type)
     SELECT id, $2, $3 FROM clients WHERE auth_token = $1]
    The amount is sent as an int4 parameter, so a value outside int4 is
    refused whatever the rows; the constraints on the type are checked on
    the rows that are inserted, and the statement inserts all its rows or
    none. *)
Definition insert_transaction (authToken : string) (amount : Z) (ty : string)
    (now : Z) (d : Database) : option error * Database :=
  if negb (int4_ok amount) then (Some pgx_out_of_range, d)
  else
    match select_client_ids d authToken with
    | [] => (None, d)
    | ids =>
        match check_transaction_type ty with
        | Some e => (Some e, d)
        | None =>
            let '(rows, seq) :=
              insert_rows ids amount ty now (token_transactions_id_seq d)
                          (token_transactions d) in
            (None, mkDatabase (clients d) rows seq)
        end
    end.

(** [CASE WHEN transaction_type = 'PURCHASE' THEN amount ELSE -amount END];
    the negation is an int4 negation, which PostgreSQL refuses on the least
    int4. *)
Definition signed_amount (t : TokenTransaction) : option Z :=
  if bool_decide (TransactionType t = "PURCHASE") then Some (Amount t)
  else if bool_decide (Amount t = int4_min) then None
  else Some (- Amount t).

(** [SUM(...)] over the rows, [None] when a term cannot be computed. *)
Fixpoint sum_signed (rows : list TokenTransaction) : option Z :=
  match rows with
  | [] => Some 0
  | t :: rows' =>
      match signed_amount t, sum_signed rows' with
      | Some a, Some s => Some (a + s)
      | _, _ => None
      end
  end.

(** [SELECT COALESCE(SUM(CASE ... END), 0) FROM token_transactions
     WHERE client_id = (SELECT id FROM clients WHERE auth_token = $1)]
    scanned into a Go [int]. A scalar subquery with no row is NULL and no
    row satisfies [client_id = NULL]; the aggregate of no row is NULL, which
    COALESCE turns into 0. A subquery with several rows is an error. The sum
    is a bigint. *)
Definition compute_balance (d : Database) (authToken : string) : Z * option error :=
  match select_client_ids d authToken with
  | [] => (0, None)
  | [id] =>
      match sum_signed (filter (fun t => ClientID t = id) (token_transactions d)) with
      | Some s => if int_ok s then (s, None) else (0, Some pgx_out_of_range)
      | None => (0, Some pgx_out_of_range)
      end
  | _ => (0, Some pgx_cardinality_violation)
  end.

(** *** The cache: one Redis database *)

Record RedisEntry := mkRedisEntry {
  entry_value : Z;
  entry_expires : Z
}.

(** *** The world a TokenService runs in *)

(** What the service asks of its two stores, in the order it asks. *)
Inductive Event :=
  | EvGet (key : string)
  | EvSet (key : string) (value ttl : Z)
  | EvInsert (authToken : string) (amount : Z) (transactionType : string)
  | EvSelectBalance (authToken : string).

(** A goroutine started by [DeductTokens]: it is about to record the usage,
    or it failed to and is about to send the token on [refreshChan]. *)
Inductive goroutine :=
  | GoRecordUsage (authToken : string)
  | GoSendRefresh (authToken : string).

Record World := mkWorld {
  db : Database;
  redis : gmap string RedisEntry;
  now : Z;
  db_faults : list bool;
  redis_faults : list bool;
  refreshChan : list string;
  goroutines : list goroutine;
  stdout : list string;
  trace : list Event
}.

Definition set_db (d : Database) (w : World) : World :=
  mkWorld d (redis w) (now w) (db_faults w) (redis_faults w)
          (refreshChan w) (goroutines w) (stdout w) (trace w).
Definition set_redis (r : gmap string RedisEntry) (w : World) : World :=
  mkWorld (db w) r (now w) (db_faults w) (redis_faults w)
          (refreshChan w) (goroutines w) (stdout w) (trace w).
Definition set_db_faults (f : list bool) (w : World) : World :=
  mkWorld (db w) (redis w) (now w) f (redis_faults w)
          (refreshChan w) (goroutines w) (stdout w) (trace w).
Definition set_redis_faults (f : list bool) (w : World) : World :=
  mkWorld (db w) (redis w) (now w) (db_faults w) f
          (refreshChan w) (goroutines w) (stdout w) (trace w).
Definition set_refreshChan (q : list string) (w : World) : World :=
  mkWorld (db w) (redis w) (now w) (db_faults w) (redis_faults w)
          q (goroutines w) (stdout w) (trace w).
Definition set_goroutines (g : list goroutine) (w : World) : World :=
  mkWorld (db w) (redis w) (now w) (db_faults w) (redis_faults w)
          (refreshChan w) g (stdout w) (trace w).
Definition set_stdout (o : list string) (w : World) : World :=
  mkWorld (db w) (redis w) (now w) (db_faults w) (redis_faults w)
          (refreshChan w) (goroutines w) o (trace w).
Definition emit (e : Event) (w : World) : World :=
  mkWorld (db w) (redis w) (now w) (db_faults w) (redis_faults w)
          (refreshChan w) (goroutines w) (stdout w) (trace w ++ [e]).

(** The state monad of the service. *)
Definition M (A : Type) : Type := World -> A * World.
Definition ret {A} (a : A) : M A := fun w => (a, w).
Definition bind {A B} (c : M A) (k : A -> M B) : M B :=
  fun w => let '(a, w') := c w in k a w'.

Notation "'let*' p ':=' c 'in' k" := (bind c (fun p => k))
  (at level 10, p pattern, c at level 100, k at level 200).

(** The next entry of a fault script; an exhausted script has no fault. *)
Definition next_fault (fs : list bool) : bool * list bool :=
  match fs with
  | [] => (false, [])
  | f :: fs' => (f, fs')
  end.

(** [ts.redis.Get(ctx, key).Int()]: a missing or expired key is
    [redis.Nil]; the value is parsed by [strconv.Atoi]. *)
Definition redis_Get_Int (key : string) : M (Z * option error) := fun w =>
  let '(fault, fs) := next_fault (redis_faults w) in
  let w' := emit (EvGet key) (set_redis_faults fs w) in
  if fault then ((0, Some redis_unavailable), w')
  else
    match redis w !! key with
    | Some e =>
        if now w <? entry_expires e then
          if int_ok (entry_value e) then ((entry_value e, None), w')
          else ((0, Some strconv_ErrRange), w')
        else ((0, Some redis_Nil), w')
    | None => ((0, Some redis_Nil), w')
    end.

(** [ts.redis.Set(ctx, key, value, ttl).Err()]: the value replaces the old
    one and expires [ttl] from now. *)
Definition redis_Set (key : string) (value ttl : Z) : M (option error) := fun w =>
  let '(fault, fs) := next_fault (redis_faults w) in
  let w' := emit (EvSet key value ttl) (set_redis_faults fs w) in
  if fault then (Some redis_unavailable, w')
  else (None, set_redis (<[key := mkRedisEntry value (now w + ttl)]> (redis w)) w').

(** [ts.db.Exec(ctx, `INSERT ...`, authToken, amount, transactionType)] *)
Definition db_Exec_insert (authToken : string) (amount : Z) (ty : string)
    : M (option error) := fun w =>
  let '(fault, fs) := next_fault (db_faults w) in
  let w' := emit (EvInsert authToken amount ty) (set_db_faults fs w) in
  if fault then (Some pgx_unavailable, w')
  else
    let '(err, d) := insert_transaction authToken amount ty (now w) (db w) in
    (err, set_db d w').

(** [ts.db.QueryRow(ctx, `SELECT ...`, authToken).Scan(&balance)] *)
Definition db_QueryRow_balance (authToken : string) : M (Z * option error) := fun w =>
  let '(fault, fs) := next_fault (db_faults w) in
  let w' := emit (EvSelectBalance authToken) (set_db_faults fs w) in
  if fault then ((0, Some pgx_unavailable), w')
  else (compute_balance (db w) authToken, w').

Definition newline : string := String (Ascii.ascii_of_nat 10) EmptyString.

(** [fmt.Printf] *)
Definition fmt_Printf (line : string) : M unit := fun w =>
  (tt, set_stdout (stdout w ++ [line]) w).

(** [go func() { ... }()] *)
Definition go (g : goroutine) : M unit := fun w =>
  (tt, set_goroutines (goroutines w ++ [g]) w).

(** *** The methods of TokenService *)

Definition getBalanceFromCache (authToken : string) : M (Z * option error) :=
  let* (balance, err) := redis_Get_Int (RedisKeyPrefix +:+ authToken) in
  match err with
  | Some e => ret (0, Some e)
  | None => ret (balance, None)
  end.

Definition updateBalanceInCache (authToken : string) (balance : Z) : M (option error) :=
  redis_Set (RedisKeyPrefix +:+ authToken) balance RedisCacheTTL.

Definition refreshBalance (authToken : string) : M (option error) :=
  let* (balance, err) := db_QueryRow_balance authToken in
  match err with
  | Some e => ret (Some e)
  | None => updateBalanceInCache authToken balance
  end.

Definition recordTransaction (authToken : string) (amount : Z)
    (transactionType : string) : M (option error) :=
  db_Exec_insert authToken amount transactionType.

Definition DeductTokens (authToken : string) : M (option error) :=
  let* (balance, err) := getBalanceFromCache authToken in
  match err with
  | Some e => ret (Some e)
  | None =>
      if balance <? TokenCost then ret (Some ErrInsufficientTokens)
      else
        let newBalance := int_sub balance TokenCost in
        let* err := updateBalanceInCache authToken newBalance in
        match err with
        | Some e => ret (Some e)
        | None =>
            let* _ := go (GoRecordUsage authToken) in
            ret None
        end
  end.

Definition AddTokens (authToken : string) (amount : Z) : M (option error) :=
  let* err := recordTransaction authToken amount "PURCHASE" in
  match err with
  | Some e => ret (Some e)
  | None => refreshBalance authToken
  end.

Definition GetBalance (authToken : string) : M (Z * option error) :=
  let* (balance, err) := getBalanceFromCache authToken in
  match err with
  | Some e =>
      if bool_decide (e = redis_Nil) then
        let* err := refreshBalance authToken in
        match err with
        | Some e' => ret (0, Some e')
        | None => getBalanceFromCache authToken
        end
      else ret (0, Some e)
  | None => ret (balance, None)
  end.

(** One step of a goroutine of [DeductTokens]; [None] when it has returned.
    [recordTransaction(context.Background(), authToken, -TokenCost, "USAGE")],
    and on an error a line on standard output and a send on [refreshChan],
    which blocks while the channel holds [CacheRefreshBatch] tokens. *)
Definition goroutine_step (g : goroutine) : M (option goroutine) :=
  match g with
  | GoRecordUsage authToken =>
      let* err := recordTransaction authToken (- TokenCost) "USAGE" in
      match err with
      | Some e =>
          let* _ := fmt_Printf ("Error recording transaction: " +:+ error_Error e
                            +:+ newline) in
          ret (Some (GoSendRefresh authToken))
      | None => ret None
      end
  | GoSendRefresh authToken => fun w =>
      if Z.of_nat (length (refreshChan w)) <? CacheRefreshBatch
      then (None, set_refreshChan (refreshChan w ++ [authToken]) w)
      else (Some g, w)
  end.

(** Every goroutine of the list takes one step, in order; the ones that
    have not returned stay. *)
Fixpoint step_all (gs : list goroutine) : M (list goroutine) :=
  match gs with
  | [] => ret []
  | g :: gs' =>
      let* r := goroutine_step g in
      let* rest := step_all gs' in
      ret (match r with Some g' => g' :: rest | None => rest end)
  end.

Definition run_goroutines : M unit := fun w =>
  let '(gs, w') := step_all (goroutines w) (set_goroutines [] w) in
  (tt, set_goroutines (gs ++ goroutines w') w').

(** One iteration of [for authToken := range ts.refreshChan] in
    [backgroundCacheRefresh]; [false] when the channel is empty and the
    worker waits. *)
Definition backgroundCacheRefresh_iter : M bool := fun w =>
  match refreshChan w with
  | [] => (false, w)
  | authToken :: q =>
      (let* err := refreshBalance authToken in
       match err with
       | Some e =>
           let* _ := fmt_Printf ("Error refreshing cache for token " +:+ authToken
                            +:+ ": " +:+ error_Error e +:+ newline) in
           ret true
       | None => ret true
       end) (set_refreshChan q w)
  end.

(** The worker for at most [n] iterations. *)
Fixpoint backgroundCacheRefresh (n : nat) : M unit :=
  match n with
  | O => ret tt
  | S n' =>
      let* more := backgroundCacheRefresh_iter in
      if more then backgroundCacheRefresh n' else ret tt
  end.

(** [NewTokenService(db, redis)]: an empty channel; the worker waits. *)
Definition NewTokenService (d : Database) (r : gmap string RedisEntry)
    (clock : Z) (dbf rf : list bool) : World :=
  mkWorld d r clock dbf rf [] [] [] [].

(** Time passing between two calls. *)
Definition sleep (d : Z) : M unit := fun w =>
  (tt, mkWorld (db w) (redis w) (now w + Z.max 0 d) (db_faults w) (redis_faults w)
               (refreshChan w) (goroutines w) (stdout w) (trace w)).

(** The cache entry of a client being dropped (eviction or DEL). *)
Definition evict (authToken : string) : M unit := fun w =>
  (tt, set_redis (delete (RedisKeyPrefix +:+ authToken) (redis w)) w).

End services.

(** ** package main: the meme selector *)

Module main.

(** Go's [float64]: IEEE 754 binary64, round to nearest even. *)
Definition float64 : Type := spec_float.
Definition f64_of_Z (z : Z) : float64 := binary_normalize 53 1024 z 0 false.
(** The decimal literal with the digits [digits] and [places] decimals:
    the quotient of two exact integers, rounded once. *)
Definition f64_lit (digits places : Z) : float64 :=
  SFdiv 53 1024 (f64_of_Z digits) (f64_of_Z (10 ^ places)).
Definition f64_mul : float64 -> float64 -> float64 := SFmul 53 1024.
Definition f64_div : float64 -> float64 -> float64 := SFdiv 53 1024.
Definition f64_add : float64 -> float64 -> float64 := SFadd 53 1024.
Definition f64_sub : float64 -> float64 -> float64 := SFsub 53 1024.
Definition f64_eqb : float64 -> float64 -> bool := SFeqb.
Definition f64_leb : float64 -> float64 -> bool := SFleb.
Definition f64_zero : float64 := S754_zero false.
(** [math.Pi] as a float64, 0x400921FB54442D18. *)
Definition math_Pi : float64 := S754_finite false 7074237752028440 (-51).
Definition math_Sqrt : float64 -> float64 := SFsqrt 53 1024.

Record Meme := mkMeme {
  ID : Z;
  Title : string;
  URL : string;
  Query : string;
  Lat : float64;
  Lon : float64
}.

(** The anonymous struct of the catalogue. *)
Record entry := mkEntry {
  title : string;
  url : string;
  memeLat : float64;
  memeLon : float64
}.

Definition memes : list entry :=
  [ mkEntry "When you realize it's Monday again..." "https://example.com/meme1.jpg"
            (f64_lit 407128 4) (f64_lit (-740060) 4);
    mkEntry "Coding at 2am be like..." "https://example.com/meme2.jpg"
            (f64_lit 515074 4) (f64_lit (-1278) 4);
    mkEntry "How it feels to fix a bug" "https://example.com/meme3.jpg"
            (f64_lit 356762 4) (f64_lit 1396503 4);
    mkEntry "That moment when your code compiles on the first try"
            "https://example.com/meme4.jpg"
            (f64_lit (-338688) 4) (f64_lit 1512093 4) ].

Definition maxDistance : float64 := f64_lit 50000 1.
Definition earthRadius : float64 := f64_lit 63710 1.

(** [strings.Contains]: [substr] is a prefix of some suffix of [s]. *)
Fixpoint strings_Contains (s substr : string) : bool :=
  String.prefix substr s ||
  match s with
  | EmptyString => false
  | String _ s' => strings_Contains s' substr
  end.

Section generateMeme.

(** What the standard library and golang.org/x/exp/rand provide:
    [strings.ToLower], the three functions of [math] that IEEE 754 does not
    fix, and [rand.Intn] on the state of the global source. *)
Variable strings_ToLower : string -> string.
Variables math_Sin math_Cos : float64 -> float64.
Variable math_Atan2 : float64 -> float64 -> float64.
Variable Source : Type.
Variable rand_Intn : Z -> Source -> Z * Source.

(** The Haversine formula, every operation rounded on its own. *)
Definition calculateDistance (lat1 lon1 lat2 lon2 : float64) : float64 :=
  let lat1Rad := f64_div (f64_mul lat1 math_Pi) (f64_of_Z 180) in
  let lon1Rad := f64_div (f64_mul lon1 math_Pi) (f64_of_Z 180) in
  let lat2Rad := f64_div (f64_mul lat2 math_Pi) (f64_of_Z 180) in
  let lon2Rad := f64_div (f64_mul lon2 math_Pi) (f64_of_Z 180) in
  let dlat := f64_sub lat2Rad lat1Rad in
  let dlon := f64_sub lon2Rad lon1Rad in
  let a :=
    f64_add
      (f64_mul (math_Sin (f64_div dlat (f64_of_Z 2)))
               (math_Sin (f64_div dlat (f64_of_Z 2))))
      (f64_mul
         (f64_mul (f64_mul (math_Cos lat1Rad) (math_Cos lat2Rad))
                  (math_Sin (f64_div dlon (f64_of_Z 2))))
         (math_Sin (f64_div dlon (f64_of_Z 2)))) in
  let c := f64_mul (f64_of_Z 2)
             (math_Atan2 (math_Sqrt a) (math_Sqrt (f64_sub (f64_of_Z 1) a))) in
  let distance := f64_mul earthRadius c in
  distance.

(** The two tests of the loop body; [&&] and [||] evaluate their right
    operand only when needed. *)
Definition matchesQuery (query : string) (meme : entry) : bool :=
  bool_decide (query = "") ||
  strings_Contains (strings_ToLower (title meme)) (strings_ToLower query).

Definition matchesLocation (lat lon : float64) (meme : entry) : bool :=
  (f64_eqb lat f64_zero && f64_eqb lon f64_zero) ||
  (negb (f64_eqb lat f64_zero) && negb (f64_eqb lon f64_zero) &&
   f64_leb (calculateDistance lat lon (memeLat meme) (memeLon meme)) maxDistance).

(** [for _, meme := range memes { if ... { filteredMemes = append(...) } }] *)
Fixpoint filterMemes (query : string) (lat lon : float64) (ms : list entry)
    : list entry :=
  match ms with
  | [] => []
  | meme :: ms' =>
      if matchesQuery query meme && matchesLocation lat lon meme
      then meme :: filterMemes query lat lon ms'
      else filterMemes query lat lon ms'
  end.

(** [generateMeme]; [None] is the panic of an index out of range. *)
Definition generateMeme (query : string) (lat lon : float64) (src : Source)
    : option Meme * Source :=
  let '(id, src1) := rand_Intn 1000 src in
  let filteredMemes := filterMemes query lat lon memes in
  if bool_decide (length filteredMemes = 0%nat)
  then (Some (mkMeme 0 "" "" query lat lon), src1)
  else
    let '(i, src2) := rand_Intn (Z.of_nat (length filteredMemes)) src1 in
    if bool_decide (0 <= i < Z.of_nat (length filteredMemes)) then
      match filteredMemes !! Z.to_nat i with
      | Some randomMeme =>
          (Some (mkMeme id (title randomMeme) (url randomMeme) query lat lon), src2)
      | None => (None, src2)
      end
    else (None, src2).

End generateMeme.

(** *** The handlers and the route /memes *)

(** What a handler reads of the request ([fiber.Ctx]): headers, query
    parameters and the body. *)
Record Ctx := mkCtx {
  reqHeaders : gmap string string;
  reqQuery : gmap string string;
  reqBody : string
}.

(** [c.Get(key)]: the header, or the empty string. *)
Definition c_Get (c : Ctx) (key : string) : string :=
  default "" (reqHeaders c !! key).

(** [c.Query(key, defaultValue)] *)
Definition c_Query (c : Ctx) (key defaultValue : string) : string :=
  match reqQuery c !! key with
  | Some v => if bool_decide (v = "") then defaultValue else v
  | None => defaultValue
  end.

(** What a handler sends: one of the three JSON objects of main.go, or the
    status text of [c.SendStatus]. *)
Inductive Payload :=
  | ErrorJSON (message : string)
  | BalanceJSON (balance : Z)
  | MemeJSON (meme : Meme)
  | StatusText.

(** What a handler returns: [c.Next()], a response, or a panic. *)
Inductive Result :=
  | Next
  | Respond (status : Z) (payload : Payload)
  | Panic.

Definition StatusOK : Z := 200.
Definition StatusBadRequest : Z := 400.
Definition StatusUnauthorized : Z := 401.
Definition StatusPaymentRequired : Z := 402.
Definition StatusInternalServerError : Z := 500.

Section handlers.

Import services.

Variable strings_ToLower : string -> string.
Variables math_Sin math_Cos : float64 -> float64.
Variable math_Atan2 : float64 -> float64 -> float64.
Variable Source : Type.
Variable rand_Intn : Z -> Source -> Z * Source.
(** [strconv.ParseFloat(s, 64)]; [None] is its error. *)
Variable strconv_ParseFloat : string -> option float64.
(** [c.Bind().JSON(&req)] on the body: the fields [auth_token] and
    [amount]; [None] is its error. *)
Variable Bind_JSON : string -> option (string * Z).

Definition authMiddleware (c : Ctx) : M Result :=
  let authToken := c_Get c "Authorization" in
  if bool_decide (authToken = "")
  then ret (Respond StatusUnauthorized (ErrorJSON "Missing authorization token"))
  else
    let* err := DeductTokens authToken in
    match err with
    | Some e =>
        match e with
        | ErrInsufficientTokens =>
            ret (Respond StatusPaymentRequired (ErrorJSON "Insufficient tokens"))
        | ErrInvalidToken =>
            ret (Respond StatusUnauthorized (ErrorJSON "Invalid authorization token"))
        | _ =>
            ret (Respond StatusInternalServerError (ErrorJSON "Internal server error"))
        end
    | None => ret Next
    end.

Definition addTokensHandler (c : Ctx) : M Result :=
  match Bind_JSON (reqBody c) with
  | None => ret (Respond StatusBadRequest (ErrorJSON "Invalid request body"))
  | Some (AuthToken, Amount) =>
      let* err := AddTokens AuthToken Amount in
      match err with
      | Some _ =>
          ret (Respond StatusInternalServerError (ErrorJSON "Failed to add tokens"))
      | None => ret (Respond StatusOK StatusText)
      end
  end.

Definition getBalanceHandler (c : Ctx) : M Result :=
  let authToken := c_Get c "Authorization" in
  if bool_decide (authToken = "")
  then ret (Respond StatusUnauthorized (ErrorJSON "Missing authorization token"))
  else
    let* (balance, err) := GetBalance authToken in
    match err with
    | Some _ =>
        ret (Respond StatusInternalServerError (ErrorJSON "Failed to get balance"))
    | None => ret (Respond StatusOK (BalanceJSON balance))
    end.

(** [getMemeHandler]; a coordinate that is not given stays the zero value
    of its variable. *)
Definition getMemeHandler (c : Ctx) (src : Source) : Result * Source :=
  let query := c_Query c "query" "" in
  let lat := c_Query c "lat" "" in
  let lon := c_Query c "lon" "" in
  match (if bool_decide (lat = "") then Some f64_zero else strconv_ParseFloat lat) with
  | None => (Respond StatusBadRequest (ErrorJSON "Invalid latitude value"), src)
  | Some latitude =>
      match (if bool_decide (lon = "") then Some f64_zero
             else strconv_ParseFloat lon) with
      | None => (Respond StatusBadRequest (ErrorJSON "Invalid longitude value"), src)
      | Some longitude =>
          match generateMeme strings_ToLower math_Sin math_Cos math_Atan2 Source
                  rand_Intn query latitude longitude src with
          | (Some meme, src') => (Respond StatusOK (MemeJSON meme), src')
          | (None, src') => (Panic, src')
          end
      end
  end.

(** [app.Get("/memes", authMiddleware, getMemeHandler)]: the second handler
    runs when the first returns [c.Next()]. *)
Definition GET_memes (c : Ctx) (src : Source) : M (Result * Source) :=
  let* r := authMiddleware c in
  match r with
  | Next => ret (getMemeHandler c src)
  | _ => ret (r, src)
  end.

End handlers.

End main.

(** * Vocabulary of the properties *)

Import models services.

(** [RedisKeyPrefix+authToken], the key of every call to Redis. *)
Definition cache_key (authToken : string) : string := RedisKeyPrefix +:+ authToken.

(** The world after a call to Redis was sent, whatever its answer. *)
Definition redis_called (ev : Event) (w : World) : World :=
  emit ev (set_redis_faults (snd (next_fault (redis_faults w))) w).

(** The world after a statement was sent to PostgreSQL. *)
Definition db_called (ev : Event) (w : World) : World :=
  emit ev (set_db_faults (snd (next_fault (db_faults w))) w).

(** [w'] is [w] after some more calls to the stores, all satisfying [P]. *)
Definition extends (P : Event -> Prop) (w w' : World) : Prop :=
  exists ext, trace w' = trace w ++ ext /\ Forall P ext.

(** A write of the cache for [authToken]: the key and the TTL in full. *)
Definition well_keyed (authToken : string) (ev : Event) : Prop :=
  match ev with
  | EvSet key _ ttl => key = "token_balance:" +:+ authToken /\ ttl = 86400000000000
  | _ => True
  end.

(** No scripted failure is left in either store. *)
Definition fault_free (w : World) : Prop :=
  Forall (fun f => f = false) (db_faults w) /\
  Forall (fun f => f = false) (redis_faults w).

(** [refreshBalance] called [n] times in a row. *)
Fixpoint repeat_refresh (n : nat) (authToken : string) : M unit :=
  match n with
  | O => ret tt
  | S n' => let* _ := refreshBalance authToken in repeat_refresh n' authToken
  end.

(** The signed sum of the rows of client [id], as the query computes it. *)
Definition ledger_sum (d : Database) (id : Z) : option Z :=
  sum_signed (filter (fun t => ClientID t = id) (token_transactions d)).

(** One client, "tok1", nothing in the ledger, nothing in the cache. *)
Definition fresh_world : World :=
  NewTokenService (mkDatabase [mkClient 1 "tok1" 0] [] 0) ∅ 0 [] [].

(** The same client with a purchase of 100 in the ledger and no cache
    entry, as after the entry expired. *)
Definition expired_world : World :=
  NewTokenService
    (mkDatabase [mkClient 1 "tok1" 0] [mkTokenTransaction 1 1 100 "PURCHASE" 0] 1)
    ∅ 0 [] [].

(** A top-up of 100, one deduction whose goroutine records the usage, then
    the cache entry is dropped and the balance is read again. *)
Definition topup_deduct_reread : M (option error * option error * (Z * option error)) :=
  let* e1 := AddTokens "tok1" 100 in
  let* e2 := DeductTokens "tok1" in
  let* _ := run_goroutines in
  let* _ := evict "tok1" in
  let* b := GetBalance "tok1" in
  ret (e1, e2, b).

(** A deduction followed by the run of its goroutine. *)
Definition deduct_recorded (authToken : string) : M (option error) :=
  let* err := DeductTokens authToken in
  let* _ := run_goroutines in
  ret err.

(** [k] recorded deductions in a row; the errors they returned. *)
Fixpoint deductions (k : nat) (authToken : string) : M (list (option error)) :=
  match k with
  | O => ret []
  | S k' =>
      let* err := deduct_recorded authToken in
      let* errs := deductions k' authToken in
      ret (err :: errs)
  end.

(** The client [id] holds [authToken], its cache entry is live and holds
    [c], the signed sum of its rows is [l], no goroutine is pending and no
    failure is scripted. *)
Definition settled (authToken : string) (id c l : Z) (w : World) : Prop :=
  select_client_ids (db w) authToken = [id] /\
  fault_free w /\
  goroutines w = [] /\
  (exists expires, redis w !! cache_key authToken = Some (mkRedisEntry c expires) /\
                   now w < expires) /\
  ledger_sum (db w) id = Some l.

(** The errors the stores can answer with; [ErrInvalidToken] is not one. *)
Definition store_error (e : error) : Prop :=
  e <> ErrInvalidToken /\ e <> ErrInsufficientTokens.

(** The client "tok1" with 5 in the cache, and a ledger whose next call
    fails. *)
Definition failing_ledger_world : World :=
  NewTokenService (mkDatabase [mkClient 1 "tok1" 0] [] 0)
    {[ "token_balance:tok1" := mkRedisEntry 5 RedisCacheTTL ]} 0 [true] [].

(** The client "tok1" with a live cache entry holding 0. *)
Definition empty_balance_world : World :=
  NewTokenService (mkDatabase [mkClient 1 "tok1" 0] [] 0)
    {[ "token_balance:tok1" := mkRedisEntry 0 RedisCacheTTL ]} 0 [] [].

(** [strings.ToLower] on ASCII strings. *)
Definition ascii_ToLower_char (c : Ascii.ascii) : Ascii.ascii :=
  let n := Ascii.nat_of_ascii c in
  if (65 <=? n)%nat && (n <=? 90)%nat then Ascii.ascii_of_nat (n + 32) else c.

Fixpoint ascii_ToLower (s : string) : string :=
  match s with
  | EmptyString => EmptyString
  | String c s' => String (ascii_ToLower_char c) (ascii_ToLower s')
  end.

(** A value written to the cache that is a balance nobody owes: not
    negative and a Go [int]. *)
Definition writes_balance (ev : Event) : Prop :=
  match ev with
  | EvSet _ value _ => 0 <= value <= int_max
  | _ => True
  end.

(** Redis does not fail any more. *)
Definition redis_up (w : World) : Prop :=
  Forall (fun f => f = false) (redis_faults w).

(** The client "tok1" with 3 in the cache and a purchase of 3 in the
    ledger. *)
Definition three_tokens_world : World :=
  NewTokenService
    (mkDatabase [mkClient 1 "tok1" 0] [mkTokenTransaction 1 1 3 "PURCHASE" 0] 1)
    {[ "token_balance:tok1" := mkRedisEntry 3 RedisCacheTTL ]} 0 [] [].

(** A world whose Redis refuses the next call. *)
Definition cache_down_world : World :=
  NewTokenService
    (mkDatabase [mkClient 1 "tok1" 0] [mkTokenTransaction 1 1 3 "PURCHASE" 0] 1)
    {[ "token_balance:tok1" := mkRedisEntry 3 RedisCacheTTL ]} 0 [] [true].

(** The ledger of [w'] is the ledger of [w] with rows added at the end, all
    satisfying [P]: no row was changed or removed, and the clients are the
    same. *)
Definition ledger_adds (P : TokenTransaction -> Prop) (w w' : World) : Prop :=
  clients (db w') = clients (db w) /\
  exists rows, token_transactions (db w') = token_transactions (db w) ++ rows /\
               Forall P rows.

(** A PURCHASE of [amount]; the USAGE of one token, as the service writes
    it. *)
Definition purchase_of (amount : Z) (t : TokenTransaction) : Prop :=
  TransactionType t = "PURCHASE" /\ Amount t = amount.
Definition usage_row (t : TokenTransaction) : Prop :=
  TransactionType t = "USAGE" /\ Amount t = - TokenCost.


(** A deduction whose goroutine fails to record the usage: the goroutine
    prints and then sends the token, the worker takes it, and the balance is
    read. *)
Definition deduct_with_failed_record (authToken : string)
    : M (option error * (Z * option error)) :=
  let* e := DeductTokens authToken in
  let* _ := run_goroutines in
  let* _ := run_goroutines in
  let* _ := backgroundCacheRefresh 2 in
  let* b := GetBalance authToken in
  ret (e, b).

(** The client "tok1" with 3 in the cache and in the ledger; the next
    statement sent to the ledger fails. *)
Definition ledger_down_once_world : World :=
  NewTokenService
    (mkDatabase [mkClient 1 "tok1" 0] [mkTokenTransaction 1 1 3 "PURCHASE" 0] 1)
    {[ "token_balance:tok1" := mkRedisEntry 3 RedisCacheTTL ]} 0 [true] [].

(** The client "tok1" with an empty ledger; the second statement sent to
    the ledger fails. *)
Definition refresh_fails_world : World :=
  NewTokenService (mkDatabase [mkClient 1 "tok1" 0] [] 0) ∅ 0 [false; true] [].

(** A world whose channel holds "tok1" and whose ledger fails. *)
Definition repair_fails_world : World :=
  mkWorld (mkDatabase [mkClient 1 "tok1" 0] [] 0) ∅ 0 [true] [] ["tok1"] [] [] [].

(** [rand.Intn(n)] returns an index below [n]. *)
Definition Intn_in_range {Source : Type} (rand_Intn : Z -> Source -> Z * Source)
    : Prop :=
  forall n src, 0 < n -> 0 <= fst (rand_Intn n src) < n.

(** A request with the header [Authorization: tok1] and the query
    parameter [lat=abc]. *)
Definition bad_latitude_request : main.Ctx :=
  main.mkCtx {[ "Authorization" := "tok1" ]} {[ "lat" := "abc" ]} "".

(** A parser of coordinates that knows "0" and "1" only. *)
Definition toy_ParseFloat (s : string) : option main.float64 :=
  if bool_decide (s = "0") then Some main.f64_zero
  else if bool_decide (s = "1") then Some (main.f64_of_Z 1)
  else None.

(** A reader of bodies that binds every body to a top-up of 10 for
    "tok1". *)
Definition toy_Bind_JSON (body : string) : option (string * Z) :=
  Some ("tok1", 10).

(** POST /tokens/add with the first request, then GET /tokens/balance with
    the second. *)
Definition topup_then_balance (Bind_JSON : string -> option (string * Z))
    (c c' : main.Ctx) : M (main.Result * main.Result) :=
  let* r1 := main.addTokensHandler Bind_JSON c in
  let* r2 := main.getBalanceHandler c' in
  ret (r1, r2).

(** A request with the header [Authorization: tok1] and nothing else. *)
Definition tok1_request : main.Ctx :=
  main.mkCtx {[ "Authorization" := "tok1" ]} ∅ "".

(** A float64 that is neither an infinity nor a NaN. *)
Definition f64_is_finite (x : main.float64) : bool :=
  match x with
  | S754_zero _ | S754_finite _ _ _ => true
  | _ => false
  end.

(** [x * math.Pi / 180], as [calculateDistance] converts each of its
    arguments. *)
Definition to_radians (x : main.float64) : main.float64 :=
  main.f64_div (main.f64_mul x main.math_Pi) (main.f64_of_Z 180).

(** [math.Abs] *)
Definition math_Abs : main.float64 -> main.float64 := SFabs.

(** What is assumed of package math: the special cases [Sin(+0) = +0] and
    [Atan2(+0, 1) = +0], and, for a finite argument, a cosine that is a
    float64 between -1 and 1. Nothing is assumed of the cosine of a NaN or
    of an infinity. *)
Definition math_contract (math_Sin math_Cos : main.float64 -> main.float64)
    (math_Atan2 : main.float64 -> main.float64 -> main.float64) : Prop :=
  math_Sin main.f64_zero = main.f64_zero /\
  math_Atan2 main.f64_zero (main.f64_of_Z 1) = main.f64_zero /\
  forall x,
    f64_is_finite x = true ->
    valid_binary 53 1024 (math_Cos x) = true /\
    main.f64_leb (math_Abs (math_Cos x)) (main.f64_of_Z 1) = true.


(** * Properties of the token service *)

(** ** The primitives, one equation each *)

Lemma int_sub_exact (a b : Z) :
  int_ok a = true -> 0 <= b <= a -> int_sub a b = a - b.
Proof.
  unfold int_ok, int_sub, int_wrap, int_min, int_max.
  intros Hok Hb. apply andb_prop in Hok as [Hlo Hhi].
  apply Z.leb_le in Hlo, Hhi.
  rewrite Z.mod_small by lia. lia.
Qed.

Lemma redis_Get_Int_world key w :
  snd (redis_Get_Int key w) = redis_called (EvGet key) w.
Proof.
  unfold redis_Get_Int, redis_called.
  destruct (next_fault (redis_faults w)) as [[] fs]; simpl; [done|].
  destruct (redis w !! key) as [e|]; [|done].
  destruct (now w <? entry_expires e); [|done].
  by destruct (int_ok (entry_value e)).
Qed.

Lemma getBalanceFromCache_world tok w :
  snd (getBalanceFromCache tok w) = redis_called (EvGet (cache_key tok)) w.
Proof.
  unfold getBalanceFromCache, bind, cache_key.
  rewrite <- (redis_Get_Int_world (RedisKeyPrefix +:+ tok) w).
  destruct (redis_Get_Int _ w) as [[b [e|]] w']; done.
Qed.

Lemma getBalanceFromCache_value tok w :
  fst (getBalanceFromCache tok w) = fst (redis_Get_Int (cache_key tok) w).
Proof.
  unfold getBalanceFromCache, bind, cache_key.
  destruct (redis_Get_Int _ w) as [[b [e|]] w'] eqn:E; simpl; [|done].
  unfold redis_Get_Int in E.
  destruct (next_fault (redis_faults w)) as [[] fs]; simpl in E; [congruence|].
  destruct (redis w !! _) as [en|]; [|congruence].
  destruct (now w <? entry_expires en); [|congruence].
  destruct (int_ok (entry_value en)); congruence.
Qed.

(** A successful read of the cache: the call was not faulted, the entry is
    there, it has not expired and its value is a Go [int]. *)
Lemma getBalanceFromCache_hit tok w b :
  fst (getBalanceFromCache tok w) = (b, None) <->
  fst (next_fault (redis_faults w)) = false /\
  exists en, redis w !! cache_key tok = Some en /\ entry_value en = b /\
             now w < entry_expires en /\ int_ok b = true.
Proof.
  rewrite getBalanceFromCache_value. unfold redis_Get_Int, cache_key.
  destruct (next_fault (redis_faults w)) as [[] fs]; simpl.
  { split; [discriminate|]. intros [? _]. done. }
  destruct (redis w !! _) as [en|]; simpl.
  2:{ split; [discriminate|]. intros [_ (? & ? & _)]. done. }
  destruct (now w <? entry_expires en) eqn:Ht.
  2:{ split; [discriminate|]. intros [_ (en' & [= <-] & _ & Hlt & _)].
      apply Z.ltb_ge in Ht. lia. }
  apply Z.ltb_lt in Ht.
  destruct (int_ok (entry_value en)) eqn:Hok; simpl.
  - split.
    + intros [= <-]. split; [done|]. by exists en.
    + intros [_ (en' & [= <-] & <- & _)]. done.
  - split; [discriminate|]. intros [_ (en' & [= <-] & <- & _ & Hok')]. congruence.
Qed.

Lemma updateBalanceInCache_eq tok v w :
  updateBalanceInCache tok v w =
  if fst (next_fault (redis_faults w))
  then (Some redis_unavailable, redis_called (EvSet (cache_key tok) v RedisCacheTTL) w)
  else (None, set_redis (<[cache_key tok := mkRedisEntry v (now w + RedisCacheTTL)]> (redis w))
                (redis_called (EvSet (cache_key tok) v RedisCacheTTL) w)).
Proof.
  unfold updateBalanceInCache, redis_Set, redis_called, cache_key.
  by destruct (next_fault (redis_faults w)) as [[] fs].
Qed.

(** X12. An entry written by [updateBalanceInCache] is read back by
    [getBalanceFromCache] for 24 hours after the write and is a miss,
    [redis.Nil], from then on. *)
Lemma cache_entry_lifetime tok v d w :
  fst (next_fault (redis_faults w)) = false ->
  fst (next_fault (snd (next_fault (redis_faults w)))) = false ->
  int_ok v = true ->
  0 <= d ->
  fst ((let* _ := updateBalanceInCache tok v in
        let* _ := sleep d in
        getBalanceFromCache tok) w)
  = if d <? RedisCacheTTL then (v, None) else (0, Some redis_Nil).
Proof.
  intros Hf1 Hf2 Hok Hd. unfold bind at 1.
  rewrite updateBalanceInCache_eq, Hf1. unfold bind, sleep.
  rewrite getBalanceFromCache_value. unfold redis_Get_Int. cbn [redis_faults
    redis_called emit set_redis set_redis_faults redis now].
  destruct (next_fault (snd (next_fault (redis_faults w)))) as [f fs].
  cbn [fst] in Hf2. subst f. rewrite lookup_insert_eq. cbn [entry_expires entry_value].
  rewrite Hok, Z.max_r by done.
  destruct (d <? RedisCacheTTL) eqn:Hlt.
  - apply Z.ltb_lt in Hlt.
    assert (Hlive : (now w + d <? now w + RedisCacheTTL) = true) by (apply Z.ltb_lt; lia).
    by rewrite Hlive.
  - apply Z.ltb_ge in Hlt.
    assert (Hdead : (now w + d <? now w + RedisCacheTTL) = false) by (apply Z.ltb_ge; lia).
    by rewrite Hdead.
Qed.

Lemma DeductTokens_eq tok w :
  DeductTokens tok w =
  let w1 := redis_called (EvGet (cache_key tok)) w in
  match fst (getBalanceFromCache tok w) with
  | (_, Some e) => (Some e, w1)
  | (b, None) =>
      if b <? TokenCost then (Some ErrInsufficientTokens, w1)
      else
        match updateBalanceInCache tok (int_sub b TokenCost) w1 with
        | (Some e, w2) => (Some e, w2)
        | (None, w2) => (None, set_goroutines (goroutines w2 ++ [GoRecordUsage tok]) w2)
        end
  end.
Proof.
  unfold DeductTokens, bind at 1.
  pose proof (getBalanceFromCache_world tok w) as Hw.
  destruct (getBalanceFromCache tok w) as [[b [e|]] w1]; simpl in *; subst w1; [done|].
  destruct (b <? TokenCost); [done|].
  unfold bind. destruct (updateBalanceInCache _ _ _) as [[e|] w2]; done.
Qed.

(** ** Deduction *)

(** C5. When the balance read from the cache is below the cost,
    [DeductTokens] returns [ErrInsufficientTokens]; the only thing it did is
    the read: the cache and the ledger are as before, no goroutine was
    started and nothing was queued for repair. *)
Theorem DeductTokens_insufficient tok w b :
  fst (getBalanceFromCache tok w) = (b, None) ->
  b < TokenCost ->
  fst (DeductTokens tok w) = Some ErrInsufficientTokens /\
  redis (snd (DeductTokens tok w)) = redis w /\
  db (snd (DeductTokens tok w)) = db w /\
  goroutines (snd (DeductTokens tok w)) = goroutines w /\
  refreshChan (snd (DeductTokens tok w)) = refreshChan w /\
  trace (snd (DeductTokens tok w)) = trace w ++ [EvGet (cache_key tok)].
Proof.
  intros Hget Hlt. rewrite DeductTokens_eq, Hget. simpl.
  apply Z.ltb_lt in Hlt. rewrite Hlt. simpl. done.
Qed.

(** What decides the value that [DeductTokens] returns, and what a
    goroutine that fails to record a usage does, in any world. *)
Lemma DeductTokens_decided tok w :
  (fst (DeductTokens tok w) = None <->
   exists b, fst (getBalanceFromCache tok w) = (b, None) /\ TokenCost <= b /\
     fst (updateBalanceInCache tok (b - TokenCost)
            (snd (getBalanceFromCache tok w))) = None) /\
  (forall d f,
     fst (DeductTokens tok (set_db d (set_db_faults f w))) = fst (DeductTokens tok w)) /\
  db (snd (DeductTokens tok w)) = db w /\
  db_faults (snd (DeductTokens tok w)) = db_faults w /\
  (forall w0 e,
     fst (recordTransaction tok (- TokenCost) "USAGE" w0) = Some e ->
     let r := goroutine_step (GoRecordUsage tok) w0 in
     fst r = Some (GoSendRefresh tok) /\
     stdout (snd r) =
       stdout w0 ++ ["Error recording transaction: " +:+ error_Error e +:+ newline] /\
     redis (snd r) = redis w0 /\
     (Z.of_nat (length (refreshChan w0)) < CacheRefreshBatch ->
      fst (goroutine_step (GoSendRefresh tok) (snd r)) = None /\
      refreshChan (snd (goroutine_step (GoSendRefresh tok) (snd r)))
        = refreshChan w0 ++ [tok])).
Proof.
  split; [|split; [|split; [|split]]].
  - rewrite DeductTokens_eq, getBalanceFromCache_world. simpl.
    destruct (fst (getBalanceFromCache tok w)) as [b [e|]] eqn:Hget.
    { split; [discriminate|]. intros (b' & [=] & _). }
    apply getBalanceFromCache_hit in Hget as Hhit.
    destruct Hhit as (_ & en & _ & _ & _ & Hok).
    destruct (b <? TokenCost) eqn:Hlt.
    { split; [discriminate|]. intros (b' & [= <-] & Hge & _).
      apply Z.ltb_lt in Hlt. lia. }
    apply Z.ltb_ge in Hlt.
    rewrite int_sub_exact by (unfold TokenCost in *; done || lia).
    destruct (updateBalanceInCache _ _ _) as [[e|] w2] eqn:Hset; simpl.
    + split; [discriminate|]. intros (b' & [= <-] & _ & Hnone).
      rewrite Hset in Hnone. discriminate.
    + split; [|done]. intros _. exists b. by rewrite Hset.
  - intros d f. rewrite !DeductTokens_eq. simpl.
    assert (Hg : fst (getBalanceFromCache tok (set_db d (set_db_faults f w)))
                 = fst (getBalanceFromCache tok w)).
    { rewrite !getBalanceFromCache_value. unfold redis_Get_Int. simpl.
      destruct (next_fault (redis_faults w)) as [[] fs]; simpl; [done|].
      destruct (redis w !! _) as [en|]; [|done].
      destruct (now w <? entry_expires en); [|done].
      by destruct (int_ok (entry_value en)). }
    rewrite Hg. destruct (fst (getBalanceFromCache tok w)) as [b [e|]]; [done|].
    destruct (b <? TokenCost); [done|].
    rewrite !updateBalanceInCache_eq. simpl.
    by destruct (fst (next_fault (redis_faults w))); simpl;
      destruct (fst (next_fault (snd (next_fault (redis_faults w))))).
  - rewrite DeductTokens_eq. simpl.
    destruct (fst (getBalanceFromCache tok w)) as [b [e|]]; [done|].
    destruct (b <? TokenCost); [done|].
    rewrite updateBalanceInCache_eq. simpl.
    by destruct (fst (next_fault (snd (next_fault (redis_faults w))))).
  - rewrite DeductTokens_eq. simpl.
    destruct (fst (getBalanceFromCache tok w)) as [b [e|]]; [done|].
    destruct (b <? TokenCost); [done|].
    rewrite updateBalanceInCache_eq. simpl.
    by destruct (fst (next_fault (snd (next_fault (redis_faults w))))).
  - intros w0 e Hrec. simpl. unfold bind.
    destruct (recordTransaction tok (- TokenCost) "USAGE" w0) as [r w1] eqn:Hr.
    simpl in Hrec. subst r. simpl.
    assert (Hw1 : redis w1 = redis w0 /\ refreshChan w1 = refreshChan w0 /\
                  stdout w1 = stdout w0).
    { unfold recordTransaction, db_Exec_insert in Hr.
      destruct (next_fault (db_faults w0)) as [[] fs]; simpl in Hr.
      - by injection Hr as _ <-.
      - destruct (insert_transaction _ _ _ _ _) as [err d]. by injection Hr as _ <-. }
    destruct Hw1 as (Hred & Hq & Hout).
    rewrite Hout, Hred. split; [done|]. split; [done|]. split; [done|].
    intros Hroom. rewrite <- Hq in Hroom. apply Z.ltb_lt in Hroom.
    rewrite Hroom. by rewrite Hq.
Qed.

Lemma recordTransaction_eq tok amount ty w :
  recordTransaction tok amount ty w =
  let w1 := db_called (EvInsert tok amount ty) w in
  if fst (next_fault (db_faults w)) then (Some pgx_unavailable, w1)
  else (fst (insert_transaction tok amount ty (now w) (db w)),
        set_db (snd (insert_transaction tok amount ty (now w) (db w))) w1).
Proof.
  unfold recordTransaction, db_Exec_insert, db_called.
  destruct (next_fault (db_faults w)) as [[] fs]; simpl; [done|].
  by destruct (insert_transaction _ _ _ _ _).
Qed.

Lemma refreshBalance_eq tok w :
  refreshBalance tok w =
  let w1 := db_called (EvSelectBalance tok) w in
  if fst (next_fault (db_faults w)) then (Some pgx_unavailable, w1)
  else
    match compute_balance (db w) tok with
    | (_, Some e) => (Some e, w1)
    | (balance, None) => updateBalanceInCache tok balance w1
    end.
Proof.
  unfold refreshBalance, bind, db_QueryRow_balance, db_called.
  destruct (next_fault (db_faults w)) as [[] fs]; simpl; [done|].
  by destruct (compute_balance (db w) tok) as [b [e|]].
Qed.

(** ** Traces *)

Lemma extends_refl P w w' : trace w' = trace w -> extends P w w'.
Proof. intros H. exists []. by rewrite app_nil_r. Qed.

Lemma extends_trans P w1 w2 w3 :
  extends P w1 w2 -> extends P w2 w3 -> extends P w1 w3.
Proof.
  intros (e1 & H1 & F1) (e2 & H2 & F2). exists (e1 ++ e2).
  split; [by rewrite H2, H1, app_assoc | by apply Forall_app].
Qed.

Lemma extends_one (P : Event -> Prop) ev w w' :
  P ev -> trace w' = trace w ++ [ev] -> extends P w w'.
Proof. intros HP H. exists [ev]. split; [done | by constructor]. Qed.

Lemma updateBalanceInCache_keyed tok v w :
  extends (well_keyed tok) w (snd (updateBalanceInCache tok v w)).
Proof.
  rewrite updateBalanceInCache_eq.
  apply extends_one with (ev := EvSet (cache_key tok) v RedisCacheTTL);
    [done | by destruct (fst (next_fault (redis_faults w)))].
Qed.

Lemma getBalanceFromCache_keyed tok w :
  extends (well_keyed tok) w (snd (getBalanceFromCache tok w)).
Proof.
  rewrite getBalanceFromCache_world.
  by apply extends_one with (ev := EvGet (cache_key tok)).
Qed.

Lemma refreshBalance_keyed tok w :
  extends (well_keyed tok) w (snd (refreshBalance tok w)).
Proof.
  rewrite refreshBalance_eq. simpl.
  assert (H1 : extends (well_keyed tok) w (db_called (EvSelectBalance tok) w))
    by by apply extends_one with (ev := EvSelectBalance tok).
  destruct (fst (next_fault (db_faults w))); [done|].
  destruct (compute_balance (db w) tok) as [b [e|]]; [done|].
  eapply extends_trans; [exact H1 | apply updateBalanceInCache_keyed].
Qed.

Lemma recordTransaction_keyed tok' tok amount ty w :
  extends (well_keyed tok') w (snd (recordTransaction tok amount ty w)).
Proof.
  rewrite recordTransaction_eq. simpl.
  apply extends_one with (ev := EvInsert tok amount ty); [done|].
  by destruct (fst (next_fault (db_faults w))).
Qed.

Lemma DeductTokens_keyed tok w :
  extends (well_keyed tok) w (snd (DeductTokens tok w)).
Proof.
  rewrite DeductTokens_eq. simpl.
  assert (H1 : extends (well_keyed tok) w (redis_called (EvGet (cache_key tok)) w))
    by by apply extends_one with (ev := EvGet (cache_key tok)).
  destruct (fst (getBalanceFromCache tok w)) as [b [e|]]; [done|].
  destruct (b <? TokenCost); [done|].
  pose proof (updateBalanceInCache_keyed tok (int_sub b TokenCost)
                (redis_called (EvGet (cache_key tok)) w)) as H2.
  destruct (updateBalanceInCache _ _ _) as [[e|] w2]; simpl in *.
  - by eapply extends_trans.
  - eapply extends_trans; [exact H1|]. eapply extends_trans; [exact H2|].
    by apply extends_refl.
Qed.

Lemma AddTokens_keyed tok amount w :
  extends (well_keyed tok) w (snd (AddTokens tok amount w)).
Proof.
  unfold AddTokens, bind.
  pose proof (recordTransaction_keyed tok tok amount "PURCHASE" w) as H1.
  destruct (recordTransaction _ _ _ w) as [[e|] w1]; simpl in *; [done|].
  eapply extends_trans; [exact H1 | apply refreshBalance_keyed].
Qed.

Lemma GetBalance_keyed tok w :
  extends (well_keyed tok) w (snd (GetBalance tok w)).
Proof.
  unfold GetBalance, bind.
  pose proof (getBalanceFromCache_keyed tok w) as H1.
  destruct (getBalanceFromCache tok w) as [[b [e|]] w1]; simpl in *; [|done].
  case_bool_decide; [|done].
  pose proof (refreshBalance_keyed tok w1) as H2.
  destruct (refreshBalance tok w1) as [[e'|] w2]; simpl in *.
  - by eapply extends_trans.
  - eapply extends_trans; [exact H1|]. eapply extends_trans; [exact H2|].
    apply getBalanceFromCache_keyed.
Qed.

Lemma backgroundCacheRefresh_iter_keyed tok q w :
  refreshChan w = tok :: q ->
  extends (well_keyed tok) w (snd (backgroundCacheRefresh_iter w)).
Proof.
  intros Hq. unfold backgroundCacheRefresh_iter. rewrite Hq. unfold bind.
  pose proof (refreshBalance_keyed tok (set_refreshChan q w)) as H1.
  destruct (refreshBalance tok _) as [[e|] w1]; simpl in *; [|done].
  eapply extends_trans; [exact H1 | by apply extends_refl].
Qed.

Lemma cache_key_inj a b : cache_key a = cache_key b -> a = b.
Proof. unfold cache_key, RedisKeyPrefix. cbn. intros H. by injection H. Qed.

(** C8. Every write of the cache made by a refresh, a deduction, a top-up,
    a balance read or the repair worker for a client uses the key
    "token_balance:" + identity and a TTL of 24 hours (in nanoseconds), the
    entry written expires 24 hours after the write, and two clients never
    share a key. *)
Theorem cache_writes_keyed :
  (forall a b : string, "token_balance:" +:+ a = "token_balance:" +:+ b -> a = b) /\
  RedisCacheTTL = 24 * 60 * 60 * 1000000000 /\
  (forall tok v w,
     trace (snd (updateBalanceInCache tok v w))
       = trace w ++ [EvSet ("token_balance:" +:+ tok) v RedisCacheTTL] /\
     redis (snd (updateBalanceInCache tok v w))
       = match fst (updateBalanceInCache tok v w) with
         | Some _ => redis w
         | None =>
             <["token_balance:" +:+ tok := mkRedisEntry v (now w + RedisCacheTTL)]>
               (redis w)
         end) /\
  (forall tok w, extends (well_keyed tok) w (snd (refreshBalance tok w))) /\
  (forall tok w, extends (well_keyed tok) w (snd (DeductTokens tok w))) /\
  (forall tok amount w, extends (well_keyed tok) w (snd (AddTokens tok amount w))) /\
  (forall tok w, extends (well_keyed tok) w (snd (GetBalance tok w))) /\
  (forall tok q w,
     extends (well_keyed tok) (set_refreshChan (tok :: q) w)
       (snd (backgroundCacheRefresh_iter (set_refreshChan (tok :: q) w)))).
Proof.
  split; [exact cache_key_inj|]. split; [reflexivity|].
  split.
  { intros tok v w. rewrite updateBalanceInCache_eq.
    by destruct (fst (next_fault (redis_faults w))). }
  split; [exact refreshBalance_keyed|].
  split; [exact DeductTokens_keyed|].
  split; [exact AddTokens_keyed|].
  split; [exact GetBalance_keyed|].
  intros tok q w. by apply (backgroundCacheRefresh_iter_keyed tok q).
Qed.

(** ** Top-up *)

(** C6. The first thing [AddTokens] sends to a store is the INSERT of the
    purchase, so every write of the cache comes after it; and when the
    INSERT fails, [AddTokens] returns that error having sent nothing to the
    cache, which is as it was. *)
Theorem AddTokens_ledger_first tok amount w :
  (exists rest,
     trace (snd (AddTokens tok amount w))
       = trace w ++ EvInsert tok amount "PURCHASE" :: rest) /\
  (forall e,
     fst (recordTransaction tok amount "PURCHASE" w) = Some e ->
     fst (AddTokens tok amount w) = Some e /\
     redis (snd (AddTokens tok amount w)) = redis w /\
     trace (snd (AddTokens tok amount w))
       = trace w ++ [EvInsert tok amount "PURCHASE"]).
Proof.
  unfold AddTokens, bind.
  assert (Ht : trace (snd (recordTransaction tok amount "PURCHASE" w))
               = trace w ++ [EvInsert tok amount "PURCHASE"]).
  { rewrite recordTransaction_eq. simpl.
    by destruct (fst (next_fault (db_faults w))). }
  assert (Hr : redis (snd (recordTransaction tok amount "PURCHASE" w)) = redis w).
  { rewrite recordTransaction_eq. simpl.
    by destruct (fst (next_fault (db_faults w))). }
  destruct (recordTransaction tok amount "PURCHASE" w) as [[e|] w1]; simpl in *.
  - split; [by exists [] |]. by intros e' [= <-].
  - split; [|discriminate].
    destruct (refreshBalance_keyed tok w1) as (ext & Hext & _).
    exists ext. by rewrite Hext, Ht, <- app_assoc.
Qed.

(** ** Repair *)

Lemma next_fault_free fs :
  Forall (fun f => f = false) fs ->
  fst (next_fault fs) = false /\ Forall (fun f => f = false) (snd (next_fault fs)).
Proof. intros H. destruct H; simpl; [by split | by split]. Qed.

(** A refresh with no failure: the cache entry of the client becomes the
    balance of the ledger, and nothing else changes but the trace. *)
Lemma refreshBalance_ok tok w b :
  fault_free w ->
  compute_balance (db w) tok = (b, None) ->
  fst (refreshBalance tok w) = None /\
  redis (snd (refreshBalance tok w))
    = <[cache_key tok := mkRedisEntry b (now w + RedisCacheTTL)]> (redis w) /\
  db (snd (refreshBalance tok w)) = db w /\
  now (snd (refreshBalance tok w)) = now w /\
  refreshChan (snd (refreshBalance tok w)) = refreshChan w /\
  goroutines (snd (refreshBalance tok w)) = goroutines w /\
  stdout (snd (refreshBalance tok w)) = stdout w /\
  fault_free (snd (refreshBalance tok w)).
Proof.
  intros [Hd Hr] Hb. rewrite refreshBalance_eq, Hb. simpl.
  destruct (next_fault_free _ Hd) as [Hd1 Hd2]. rewrite Hd1.
  rewrite updateBalanceInCache_eq. simpl.
  destruct (next_fault_free _ Hr) as [Hr1 Hr2]. rewrite Hr1. simpl.
  repeat split; done.
Qed.

Lemma repeat_refresh_ok n tok w b :
  fault_free w ->
  compute_balance (db w) tok = (b, None) ->
  redis (snd (repeat_refresh (S n) tok w))
    = <[cache_key tok := mkRedisEntry b (now w + RedisCacheTTL)]> (redis w) /\
  db (snd (repeat_refresh (S n) tok w)) = db w.
Proof.
  revert w. induction n as [|n IH]; intros w Hf Hb.
  - simpl. unfold bind.
    destruct (refreshBalance_ok tok w b Hf Hb) as (_ & Hr & Hdb & _).
    destruct (refreshBalance tok w) as [r w1]; simpl in *. done.
  - change (repeat_refresh (S (S n)) tok w)
      with (bind (refreshBalance tok) (fun _ => repeat_refresh (S n) tok) w).
    unfold bind at 1 2.
    destruct (refreshBalance_ok tok w b Hf Hb)
      as (_ & Hr & Hdb & Hnow & _ & _ & _ & Hf1).
    destruct (refreshBalance tok w) as [r w1]; simpl in Hr, Hdb, Hnow, Hf1.
    assert (Hb1 : compute_balance (db w1) tok = (b, None)) by by rewrite Hdb.
    destruct (IH w1 Hf1 Hb1) as [IH1 IH2].
    rewrite IH1, IH2, Hr, Hnow, Hdb. split; [|done].
    apply insert_insert_eq.
Qed.

Lemma backgroundCacheRefresh_iter_empty w :
  refreshChan w = [] -> backgroundCacheRefresh_iter w = (false, w).
Proof. intros Hq. unfold backgroundCacheRefresh_iter. by rewrite Hq. Qed.

Lemma backgroundCacheRefresh_iter_ok tok q w :
  refreshChan w = tok :: q ->
  fst (refreshBalance tok (set_refreshChan q w)) = None ->
  backgroundCacheRefresh_iter w = (true, snd (refreshBalance tok (set_refreshChan q w))).
Proof.
  intros Hq Hnone. unfold backgroundCacheRefresh_iter. rewrite Hq. unfold bind.
  destruct (refreshBalance tok _) as [r w1]; simpl in *. by subst r.
Qed.

Lemma backgroundCacheRefresh_S m w :
  backgroundCacheRefresh (S m) w =
  if fst (backgroundCacheRefresh_iter w)
  then backgroundCacheRefresh m (snd (backgroundCacheRefresh_iter w))
  else (tt, snd (backgroundCacheRefresh_iter w)).
Proof.
  cbn [backgroundCacheRefresh]. unfold bind.
  by destruct (backgroundCacheRefresh_iter w) as [[] w1].
Qed.

Lemma backgroundCacheRefresh_ok n k tok w b :
  fault_free w ->
  compute_balance (db w) tok = (b, None) ->
  refreshChan w = replicate (S n) tok ->
  exists w', backgroundCacheRefresh (S n + S k) w = (tt, w') /\
    redis w' = <[cache_key tok := mkRedisEntry b (now w + RedisCacheTTL)]> (redis w) /\
    db w' = db w /\ refreshChan w' = [] /\ stdout w' = stdout w.
Proof.
  revert w. induction n as [|n IH]; intros w Hf Hb Hq.
  - assert (Hf0 : fault_free (set_refreshChan [] w)) by done.
    destruct (refreshBalance_ok tok (set_refreshChan [] w) b Hf0 Hb)
      as (Hnone & Hr & Hdb & _ & Hq1 & _ & Hout & _).
    change (1 + S k)%nat with (S (S k)).
    rewrite backgroundCacheRefresh_S.
    rewrite (backgroundCacheRefresh_iter_ok tok [] w Hq Hnone). cbn [fst snd].
    rewrite backgroundCacheRefresh_S.
    rewrite (backgroundCacheRefresh_iter_empty _ Hq1). cbn [fst snd].
    eexists. split; [reflexivity|]. done.
  - assert (Hf0 : fault_free (set_refreshChan (replicate (S n) tok) w)) by done.
    destruct (refreshBalance_ok tok (set_refreshChan (replicate (S n) tok) w) b Hf0 Hb)
      as (Hnone & Hr & Hdb & Hnow & Hq1 & _ & Hout & Hf1).
    change (S (S n) + S k)%nat with (S (S n + S k))%nat.
    rewrite backgroundCacheRefresh_S.
    rewrite (backgroundCacheRefresh_iter_ok tok (replicate (S n) tok) w Hq Hnone).
    cbn [fst snd].
    set (w1 := snd (refreshBalance tok (set_refreshChan (replicate (S n) tok) w))) in *.
    assert (Hb1 : compute_balance (db w1) tok = (b, None)) by by rewrite Hdb.
    destruct (IH w1 Hf1 Hb1 Hq1) as (w' & -> & IH1 & IH2 & IH3 & IH4).
    exists w'. split; [done|].
    rewrite IH1, IH2, IH3, IH4, Hr, Hnow, Hdb, Hout. repeat split; try done.
    apply insert_insert_eq.
Qed.

(** C7. With a ledger that does not change and stores that do not fail,
    one reconciliation or any number of them in a row leave the same cache:
    the entry of the client holds the balance computed from the ledger.
    This holds of [refreshBalance] called repeatedly and of the worker
    draining a channel that holds the client's token several times. *)
Theorem repair_idempotent tok w b n k :
  fault_free w ->
  compute_balance (db w) tok = (b, None) ->
  redis (snd (repeat_refresh (S n) tok w)) = redis (snd (refreshBalance tok w)) /\
  redis (snd (repeat_refresh (S n) tok w)) !! cache_key tok
    = Some (mkRedisEntry b (now w + RedisCacheTTL)) /\
  db (snd (repeat_refresh (S n) tok w)) = db w /\
  redis (snd (backgroundCacheRefresh (S n + S k)
                (set_refreshChan (replicate (S n) tok) w)))
    = redis (snd (refreshBalance tok w)) /\
  refreshChan (snd (backgroundCacheRefresh (S n + S k)
                      (set_refreshChan (replicate (S n) tok) w))) = [] /\
  db (snd (backgroundCacheRefresh (S n + S k)
             (set_refreshChan (replicate (S n) tok) w))) = db w.
Proof.
  intros Hf Hb.
  destruct (refreshBalance_ok tok w b Hf Hb) as (_ & Hr & _).
  destruct (repeat_refresh_ok n tok w b Hf Hb) as [H1 H2].
  rewrite H1, H2, Hr. split; [done|]. split; [apply lookup_insert_eq|].
  split; [done|].
  assert (Hf' : fault_free (set_refreshChan (replicate (S n) tok) w)) by done.
  destruct (backgroundCacheRefresh_ok n k tok
              (set_refreshChan (replicate (S n) tok) w) b Hf' Hb eq_refl)
    as (w' & -> & Hr' & Hdb' & Hq' & _).
  cbn [snd]. by rewrite Hr', Hdb', Hq'.
Qed.

(** ** The ledger *)

Lemma sum_signed_app l1 l2 :
  sum_signed (l1 ++ l2) =
  match sum_signed l1, sum_signed l2 with
  | Some a, Some b => Some (a + b)
  | _, _ => None
  end.
Proof.
  induction l1 as [|t l1 IH]; simpl.
  - by destruct (sum_signed l2).
  - rewrite IH. destruct (signed_amount t) as [a|]; [|done].
    destruct (sum_signed l1) as [s1|]; [|done].
    destruct (sum_signed l2) as [s2|]; [|done].
    f_equal. lia.
Qed.

Lemma ledger_sum_append d id row :
  ClientID row = id ->
  ledger_sum (mkDatabase (clients d) (token_transactions d ++ [row])
                         (token_transactions_id_seq d + 1)) id
  = match ledger_sum d id, signed_amount row with
    | Some s, Some a => Some (s + a)
    | _, _ => None
    end.
Proof.
  intros Hid. unfold ledger_sum. simpl.
  rewrite filter_app, sum_signed_app.
  rewrite (filter_cons_True _ row []) by done.
  rewrite filter_nil. simpl.
  destruct (sum_signed _) as [s|]; [|done].
  destruct (signed_amount row) as [a|]; [|done].
  f_equal. lia.
Qed.

Lemma compute_balance_one d tok id :
  select_client_ids d tok = [id] ->
  compute_balance d tok =
  match ledger_sum d id with
  | Some s => if int_ok s then (s, None) else (0, Some pgx_out_of_range)
  | None => (0, Some pgx_out_of_range)
  end.
Proof. intros H. unfold compute_balance, ledger_sum. by rewrite H. Qed.

(** The INSERT for a token held by one client: one row, or an error and no
    row. *)
Lemma insert_transaction_one tok amount ty t d id :
  select_client_ids d tok = [id] ->
  insert_transaction tok amount ty t d =
  if negb (int4_ok amount) then (Some pgx_out_of_range, d)
  else
    match check_transaction_type ty with
    | Some e => (Some e, d)
    | None =>
        (None,
         mkDatabase (clients d)
           (token_transactions d
              ++ [mkTokenTransaction (token_transactions_id_seq d + 1) id amount ty t])
           (token_transactions_id_seq d + 1))
    end.
Proof.
  intros H. unfold insert_transaction. rewrite H.
  destruct (negb (int4_ok amount)); [done|].
  by destruct (check_transaction_type ty).
Qed.

Lemma insert_transaction_none tok amount ty t d :
  select_client_ids d tok = [] ->
  insert_transaction tok amount ty t d =
  if negb (int4_ok amount) then (Some pgx_out_of_range, d) else (None, d).
Proof. intros H. unfold insert_transaction. by rewrite H. Qed.

Lemma insert_transaction_clients tok amount ty t d :
  clients (snd (insert_transaction tok amount ty t d)) = clients d.
Proof.
  unfold insert_transaction. destruct (negb (int4_ok amount)); [done|].
  destruct (select_client_ids d tok) as [|id ids]; [done|].
  destruct (check_transaction_type ty); [done|].
  by destruct (insert_rows _ _ _ _ _ _).
Qed.

(** What a successful INSERT did, for a token held by one client. *)
Lemma recordTransaction_success tok amount ty w id :
  select_client_ids (db w) tok = [id] ->
  fst (recordTransaction tok amount ty w) = None ->
  int4_ok amount = true /\ check_transaction_type ty = None /\
  snd (recordTransaction tok amount ty w) =
    set_db (mkDatabase (clients (db w))
              (token_transactions (db w)
                 ++ [mkTokenTransaction (token_transactions_id_seq (db w) + 1)
                                        id amount ty (now w)])
              (token_transactions_id_seq (db w) + 1))
           (db_called (EvInsert tok amount ty) w).
Proof.
  intros Hid. rewrite recordTransaction_eq. cbn zeta.
  destruct (fst (next_fault (db_faults w))); [discriminate|].
  rewrite (insert_transaction_one _ _ _ _ _ _ Hid).
  destruct (int4_ok amount); [|discriminate]. cbn [negb].
  destruct (check_transaction_type ty); [discriminate|]. done.
Qed.

(** What a successful refresh did. *)
Lemma refreshBalance_success tok w :
  fst (refreshBalance tok w) = None ->
  exists b, compute_balance (db w) tok = (b, None) /\
    redis (snd (refreshBalance tok w))
      = <[cache_key tok := mkRedisEntry b (now w + RedisCacheTTL)]> (redis w) /\
    db (snd (refreshBalance tok w)) = db w.
Proof.
  rewrite refreshBalance_eq. cbn zeta.
  destruct (fst (next_fault (db_faults w))); [discriminate|].
  destruct (compute_balance (db w) tok) as [b [e|]]; [discriminate|].
  rewrite updateBalanceInCache_eq.
  destruct (fst (next_fault (redis_faults _))); [discriminate|].
  intros _. by exists b.
Qed.

(** C9. [AddTokens] does not look at the amount. For a token held by one
    client and any amount, zero and negative ones included, as soon as the
    INSERT and the refresh that follows succeed, [AddTokens] returns [nil],
    the ledger has one more row, a PURCHASE of exactly that amount, and the
    signed sum of the client's rows, which the cache now holds, has moved
    by that amount: down when it is negative. *)
Theorem AddTokens_no_validation tok amount w id :
  select_client_ids (db w) tok = [id] ->
  fst (recordTransaction tok amount "PURCHASE" w) = None ->
  fst (refreshBalance tok (snd (recordTransaction tok amount "PURCHASE" w))) = None ->
  fst (AddTokens tok amount w) = None /\
  token_transactions (db (snd (AddTokens tok amount w)))
    = token_transactions (db w)
        ++ [mkTokenTransaction (token_transactions_id_seq (db w) + 1) id amount
                               "PURCHASE" (now w)] /\
  exists s,
    ledger_sum (db w) id = Some s /\
    ledger_sum (db (snd (AddTokens tok amount w))) id = Some (s + amount) /\
    redis (snd (AddTokens tok amount w)) !! cache_key tok
      = Some (mkRedisEntry (s + amount) (now w + RedisCacheTTL)).
Proof.
  intros Hid Hrec Href. unfold AddTokens, bind.
  destruct (recordTransaction_success _ _ _ _ _ Hid Hrec) as (_ & _ & Hw1).
  destruct (recordTransaction tok amount "PURCHASE" w) as [r w1].
  cbn [fst snd] in Hrec, Href, Hw1. subst r.
  destruct (refreshBalance_success _ _ Href) as (b & Hb & Hred & Hdb).
  rewrite Href, Hdb, Hred.
  assert (Hdb1 : db w1 = mkDatabase (clients (db w))
              (token_transactions (db w)
                 ++ [mkTokenTransaction (token_transactions_id_seq (db w) + 1)
                                        id amount "PURCHASE" (now w)])
              (token_transactions_id_seq (db w) + 1)) by by rewrite Hw1.
  assert (Hnow : now w1 = now w) by by rewrite Hw1.
  rewrite Hnow, Hdb1. split; [done|]. split; [done|].
  assert (Hid1 : select_client_ids (db w1) tok = [id]) by by rewrite Hdb1.
  rewrite (compute_balance_one _ _ _ Hid1), Hdb1 in Hb.
  rewrite ledger_sum_append in Hb |- * by done.
  change (signed_amount _) with (Some amount) in Hb |- *.
  destruct (ledger_sum (db w) id) as [s|]; [|discriminate].
  destruct (int_ok (s + amount)); [|discriminate].
  injection Hb as <-.
  exists s. split; [done|]. split; [done|]. apply lookup_insert_eq.
Qed.

(** ** Where the service departs from its contract *)

(** C1. A top-up of 100 and one recorded deduction: the USAGE row carries
    the amount -1, and the balance recomputed from the ledger, which
    negates the amount of a USAGE row, is 101 where the contract says 99. *)
Theorem ledger_balance_after_deduction :
  fst (topup_deduct_reread fresh_world) = (None, None, (101, None)) /\
  token_transactions (db (snd (topup_deduct_reread fresh_world)))
    = [mkTokenTransaction 1 1 100 "PURCHASE" 0; mkTokenTransaction 2 1 (-1) "USAGE" 0] /\
  compute_balance (db (snd (topup_deduct_reread fresh_world))) "tok1" = (101, None) /\
  goroutines (snd (topup_deduct_reread fresh_world)) = [].
Proof. vm_compute. repeat split; reflexivity. Qed.

(** C2. A token that no client holds: [GetBalance] returns the balance 0
    and no error, [AddTokens] returns [nil] and records nothing. *)
Theorem unknown_client_not_reported :
  fst (GetBalance "no-such-token" fresh_world) = (0, None) /\
  fst (AddTokens "no-such-token" 5 fresh_world) = None /\
  token_transactions (db (snd (AddTokens "no-such-token" 5 fresh_world))) = [] /\
  select_client_ids (db fresh_world) "no-such-token" = [].
Proof. vm_compute. repeat split; reflexivity. Qed.

(** C3. A client with 100 in the ledger and no cache entry: [GetBalance]
    refreshes the cache and returns 100, [DeductTokens] returns [redis.Nil]
    and leaves the cache empty. *)
Theorem DeductTokens_fails_on_cache_miss :
  fst (GetBalance "tok1" expired_world) = (100, None) /\
  fst (DeductTokens "tok1" expired_world) = Some redis_Nil /\
  redis (snd (DeductTokens "tok1" expired_world)) = ∅ /\
  trace (snd (DeductTokens "tok1" expired_world)) = [EvGet "token_balance:tok1"].
Proof. vm_compute. repeat split; reflexivity. Qed.

(** * The meme selector *)

Section selector.

Variable strings_ToLower : string -> string.
Variables math_Sin math_Cos : main.float64 -> main.float64.
Variable math_Atan2 : main.float64 -> main.float64 -> main.float64.
Variable Source : Type.
Variable rand_Intn : Z -> Source -> Z * Source.

Lemma filterMemes_no_location query lat lon ms :
  (forall meme, main.matchesLocation math_Sin math_Cos math_Atan2 lat lon meme = false) ->
  main.filterMemes strings_ToLower math_Sin math_Cos math_Atan2 query lat lon ms = [].
Proof.
  intros Hloc. induction ms as [|meme ms IH]; [done|].
  cbn [main.filterMemes]. by rewrite Hloc, andb_false_r.
Qed.

(** C10. When exactly one of [lat] and [lon] is different from 0, no entry
    of the catalogue passes the location test, whatever the query and the
    distances, and [generateMeme] returns the empty Meme: ID 0, empty Title
    and URL, with the query and the two coordinates it was given. *)
Theorem generateMeme_one_coordinate query lat lon src :
  xorb (negb (main.f64_eqb lat main.f64_zero))
       (negb (main.f64_eqb lon main.f64_zero)) = true ->
  (forall meme,
     main.matchesLocation math_Sin math_Cos math_Atan2 lat lon meme = false) /\
  fst (main.generateMeme strings_ToLower math_Sin math_Cos math_Atan2 Source
         rand_Intn query lat lon src)
    = Some (main.mkMeme 0 "" "" query lat lon).
Proof.
  intros Hone.
  assert (Hloc : forall meme,
            main.matchesLocation math_Sin math_Cos math_Atan2 lat lon meme = false).
  { intros meme. unfold main.matchesLocation.
    destruct (main.f64_eqb lat main.f64_zero), (main.f64_eqb lon main.f64_zero);
      done. }
  split; [exact Hloc|].
  unfold main.generateMeme.
  destruct (rand_Intn 1000 src) as [id src1].
  by rewrite (filterMemes_no_location query lat lon main.memes Hloc).
Qed.

End selector.

(** * The ledger after recorded deductions, in general *)

Lemma fault_free_redis_called ev w : fault_free w -> fault_free (redis_called ev w).
Proof.
  intros [Hd Hr]. split; [done|]. simpl. by apply next_fault_free.
Qed.

Lemma fault_free_db_called ev w : fault_free w -> fault_free (db_called ev w).
Proof.
  intros [Hd Hr]. split; [|done]. simpl. by apply next_fault_free.
Qed.

Lemma run_goroutines_one g w :
  goroutines w = [g] ->
  run_goroutines w =
  let r := goroutine_step g (set_goroutines [] w) in
  (tt, set_goroutines (match fst r with Some g' => [g'] | None => [] end
                         ++ goroutines (snd r)) (snd r)).
Proof.
  intros Hg. unfold run_goroutines. rewrite Hg. cbn [step_all]. unfold bind, ret.
  by destruct (goroutine_step g _) as [[g'|] w1].
Qed.

Lemma RedisCacheTTL_pos : 0 < RedisCacheTTL.
Proof. reflexivity. Qed.

Lemma deduct_recorded_settled tok id c l w :
  settled tok id c l w -> 1 <= c -> int_ok c = true ->
  exists w', deduct_recorded tok w = (None, w') /\
             settled tok id (c - 1) (l + 1) w'.
Proof.
  intros (Hid & Hf & Hg & (ex & Hentry & Hlive) & Hsum) Hc Hok.
  unfold deduct_recorded, bind at 1.
  assert (Hget : fst (getBalanceFromCache tok w) = (c, None)).
  { apply getBalanceFromCache_hit. split; [apply next_fault_free, Hf|].
    by exists (mkRedisEntry c ex). }
  rewrite DeductTokens_eq, Hget. cbn zeta.
  assert (Hlt : (c <? TokenCost) = false) by (apply Z.ltb_ge; unfold TokenCost; lia).
  assert (Hsub : int_sub c TokenCost = c - 1)
    by (apply int_sub_exact; [done | unfold TokenCost; lia]).
  rewrite Hlt, Hsub.
  set (w1 := redis_called (EvGet (cache_key tok)) w).
  assert (Hf1 : fault_free w1) by by apply fault_free_redis_called.
  rewrite updateBalanceInCache_eq.
  destruct (next_fault_free _ (proj2 Hf1)) as [-> _].
  set (w2 := set_redis _ _).
  assert (Hf2 : fault_free w2)
    by (apply (fault_free_redis_called (EvSet (cache_key tok) (c - 1) RedisCacheTTL)
                 w1 Hf1)).
  unfold bind. erewrite run_goroutines_one by (cbn; rewrite Hg; reflexivity).
  cbn zeta. cbn [goroutine_step]. unfold bind.
  set (w3 := set_goroutines [] _).
  assert (Hf3 : fault_free w3) by exact Hf2.
  assert (Hid3 : select_client_ids (db w3) tok = [id]) by exact Hid.
  rewrite recordTransaction_eq. cbn zeta.
  destruct (next_fault_free _ (proj1 Hf3)) as [-> _].
  rewrite (insert_transaction_one _ _ _ _ _ _ Hid3).
  change (negb (int4_ok (- TokenCost))) with false. cbn iota.
  change (check_transaction_type "USAGE") with (@None error). cbn iota.
  cbn [fst snd ret app].
  eexists. split; [reflexivity|].
  split; [exact Hid|].
  split; [by apply fault_free_db_called|].
  split; [done|].
  split.
  - exists (now w + RedisCacheTTL). split.
    + cbn. apply lookup_insert_eq.
    + cbn. pose proof RedisCacheTTL_pos. lia.
  - change (db (set_goroutines _ _)) with
      (mkDatabase (clients (db w))
         (token_transactions (db w)
            ++ [mkTokenTransaction (token_transactions_id_seq (db w) + 1) id
                                   (- TokenCost) "USAGE" (now w)])
         (token_transactions_id_seq (db w) + 1)).
    rewrite ledger_sum_append by done. rewrite Hsum.
    change (signed_amount _) with (Some 1). done.
Qed.

Lemma deductions_settled k tok id c l w :
  settled tok id c l w -> Z.of_nat k <= c -> int_ok c = true ->
  exists w', deductions k tok w = (replicate k None, w') /\
             settled tok id (c - Z.of_nat k) (l + Z.of_nat k) w'.
Proof.
  revert c l w. induction k as [|k IH]; intros c l w Hs Hk Hok.
  - exists w. cbn. by rewrite Z.sub_0_r, Z.add_0_r.
  - cbn [deductions]. unfold bind at 1.
    destruct (deduct_recorded_settled tok id c l w Hs ltac:(lia) Hok)
      as (w1 & -> & Hs1).
    assert (Hok1 : int_ok (c - 1) = true).
    { unfold int_ok, int_min, int_max in *.
      apply andb_prop in Hok as [H1 H2]. apply Z.leb_le in H1, H2.
      apply andb_true_intro. split; apply Z.leb_le; lia. }
    destruct (IH (c - 1) (l + 1) w1 Hs1 ltac:(lia) Hok1) as (w2 & He & Hs2).
    unfold bind. rewrite He. exists w2. split; [done|].
    replace (c - Z.of_nat (S k)) with (c - 1 - Z.of_nat k) by lia.
    replace (l + Z.of_nat (S k)) with (l + 1 + Z.of_nat k) by lia.
    done.
Qed.

Lemma compute_balance_int_ok d tok b :
  compute_balance d tok = (b, None) -> int_ok b = true.
Proof.
  unfold compute_balance.
  destruct (select_client_ids d tok) as [|id [|id' ids]]; [by intros [= <-] | | done].
  destruct (sum_signed _) as [s|]; [|done].
  destruct (int_ok s) eqn:Hok; [|done]. by intros [= <-].
Qed.

(** [GetBalance] on a miss, with stores that do not fail: the balance of
    the ledger. *)
Lemma GetBalance_miss tok w b :
  fault_free w ->
  redis w !! cache_key tok = None ->
  compute_balance (db w) tok = (b, None) ->
  fst (GetBalance tok w) = (b, None).
Proof.
  intros Hf Hmiss Hb. unfold GetBalance, bind.
  assert (Hget : fst (getBalanceFromCache tok w) = (0, Some redis_Nil)).
  { rewrite getBalanceFromCache_value. unfold redis_Get_Int.
    destruct (next_fault_free _ (proj2 Hf)) as [Hnf _].
    destruct (next_fault (redis_faults w)) as [f fs]. cbn [fst] in Hnf. subst f.
    by rewrite Hmiss. }
  pose proof (getBalanceFromCache_world tok w) as Hw1.
  destruct (getBalanceFromCache tok w) as [r w1]. cbn [fst snd] in Hget, Hw1.
  subst r w1. rewrite bool_decide_eq_true_2 by done.
  set (w1 := redis_called _ w).
  assert (Hf1 : fault_free w1) by by apply fault_free_redis_called.
  destruct (refreshBalance_ok tok w1 b Hf1 Hb) as (Hnone & Hred & _ & Hnow & _ & _ & _ & Hf2).
  destruct (refreshBalance tok w1) as [r w2]. cbn [fst snd] in Hnone, Hred, Hnow, Hf2.
  subst r. apply getBalanceFromCache_hit.
  split; [apply next_fault_free, Hf2|].
  exists (mkRedisEntry b (now w1 + RedisCacheTTL)).
  rewrite Hred, Hnow. split; [apply lookup_insert_eq|]. split; [done|].
  split; [cbn; pose proof RedisCacheTTL_pos; lia|].
  by apply compute_balance_int_ok in Hb.
Qed.

Lemma AddTokens_settled tok id n l w :
  select_client_ids (db w) tok = [id] ->
  fault_free w ->
  goroutines w = [] ->
  ledger_sum (db w) id = Some l ->
  int4_ok n = true ->
  int_ok (l + n) = true ->
  exists w', AddTokens tok n w = (None, w') /\ settled tok id (l + n) (l + n) w'.
Proof.
  intros Hid Hf Hg Hsum Hn Hok. unfold AddTokens, bind.
  rewrite recordTransaction_eq. cbn zeta.
  destruct (next_fault_free _ (proj1 Hf)) as [-> _].
  rewrite (insert_transaction_one _ _ _ _ _ _ Hid), Hn. cbn [negb].
  change (check_transaction_type "PURCHASE") with (@None error). cbn [fst snd].
  set (d1 := mkDatabase _ _ _).
  set (w1 := set_db d1 _).
  assert (Hf1 : fault_free w1)
    by apply (fault_free_db_called (EvInsert tok n "PURCHASE") w Hf).
  assert (Hsum1 : ledger_sum d1 id = Some (l + n)).
  { unfold d1. rewrite ledger_sum_append by done. by rewrite Hsum. }
  assert (Hb : compute_balance (db w1) tok = (l + n, None)).
  { rewrite (compute_balance_one _ _ id) by done.
    change (db w1) with d1. by rewrite Hsum1, Hok. }
  destruct (refreshBalance_ok tok w1 (l + n) Hf1 Hb)
    as (Hnone & Hred & Hdb & Hnow & _ & Hgo & _ & Hf2).
  destruct (refreshBalance tok w1) as [r w2].
  cbn [fst snd] in Hnone, Hred, Hdb, Hnow, Hgo, Hf2. subst r.
  exists w2. split; [done|].
  split; [by rewrite Hdb|]. split; [done|]. split; [by rewrite Hgo|].
  split.
  - exists (now w1 + RedisCacheTTL). rewrite Hred, Hnow.
    split; [apply lookup_insert_eq|]. pose proof RedisCacheTTL_pos. lia.
  - by rewrite Hdb.
Qed.

(** A top-up of [n] on a client whose ledger sums to 0, [k] deductions each
    recorded by its goroutine, the cache entry dropped, and the balance read
    again: every call succeeds and the balance read is [n + k]. *)
Lemma ledger_counts_usage_upwards tok id n k w :
  select_client_ids (db w) tok = [id] ->
  fault_free w ->
  goroutines w = [] ->
  ledger_sum (db w) id = Some 0 ->
  int4_ok n = true ->
  Z.of_nat k <= n ->
  fst ((let* e := AddTokens tok n in
        let* es := deductions k tok in
        let* _ := evict tok in
        let* b := GetBalance tok in
        ret (e, es, b)) w)
  = (None, replicate k None, (n + Z.of_nat k, None)).
Proof.
  intros Hid Hf Hg Hsum Hn Hk.
  assert (Hn' : int4_min <= n <= int4_max).
  { unfold int4_ok in Hn. apply andb_prop in Hn as [H1 H2].
    by apply Z.leb_le in H1, H2. }
  unfold int4_min, int4_max in Hn'.
  assert (Hok : int_ok (0 + n) = true).
  { unfold int_ok, int_min, int_max.
    apply andb_true_intro. split; apply Z.leb_le; lia. }
  destruct (AddTokens_settled tok id n 0 w Hid Hf Hg Hsum Hn Hok) as (w1 & He & Hs1).
  unfold bind at 1. rewrite He.
  destruct (deductions_settled k tok id (0 + n) (0 + n) w1 Hs1 ltac:(lia) Hok)
    as (w2 & Hes & (Hid2 & Hf2 & _ & _ & Hsum2)).
  unfold bind at 1. rewrite Hes. unfold bind at 1. cbn [evict].
  set (w3 := set_redis _ w2).
  assert (Hb : compute_balance (db w3) tok = (n + Z.of_nat k, None)).
  { rewrite (compute_balance_one _ _ id) by done. change (db w3) with (db w2).
    rewrite Hsum2. replace (0 + n + Z.of_nat k) with (n + Z.of_nat k) by lia.
    assert (Hok' : int_ok (n + Z.of_nat k) = true).
    { unfold int_ok, int_min, int_max.
      apply andb_true_intro. split; apply Z.leb_le; lia. }
    by rewrite Hok'. }
  assert (Hget : fst (GetBalance tok w3) = (n + Z.of_nat k, None)).
  { apply GetBalance_miss; [exact Hf2 | apply lookup_delete_eq | exact Hb]. }
  unfold bind. destruct (GetBalance tok w3) as [b w4]. cbn [fst] in Hget.
  by subst b.
Qed.

(** * Unknown clients and cache misses, in general *)

Lemma unknown_client_GetBalance tok w :
  select_client_ids (db w) tok = [] ->
  fault_free w ->
  redis w !! cache_key tok = None ->
  fst (GetBalance tok w) = (0, None).
Proof.
  intros Hid Hf Hmiss. apply GetBalance_miss; [done | done |].
  unfold compute_balance. by rewrite Hid.
Qed.

Lemma unknown_client_AddTokens tok amount w :
  select_client_ids (db w) tok = [] ->
  fault_free w ->
  int4_ok amount = true ->
  fst (AddTokens tok amount w) = None /\
  db (snd (AddTokens tok amount w)) = db w.
Proof.
  intros Hid Hf Hn. unfold AddTokens, bind.
  rewrite recordTransaction_eq. cbn zeta.
  destruct (next_fault_free _ (proj1 Hf)) as [-> _].
  rewrite (insert_transaction_none _ _ _ _ _ Hid), Hn. cbn [negb fst snd].
  set (w1 := set_db _ _).
  assert (Hf1 : fault_free w1)
    by apply (fault_free_db_called (EvInsert tok amount "PURCHASE") w Hf).
  assert (Hb : compute_balance (db w1) tok = (0, None))
    by (unfold compute_balance; change (db w1) with (db w); by rewrite Hid).
  destruct (refreshBalance_ok tok w1 0 Hf1 Hb) as (Hnone & _ & Hdb & _).
  destruct (refreshBalance tok w1) as [r w2]. cbn [fst snd] in *. by subst r.
Qed.

Lemma getBalanceFromCache_error tok w e :
  snd (fst (getBalanceFromCache tok w)) = Some e -> store_error e.
Proof.
  rewrite getBalanceFromCache_value. unfold redis_Get_Int.
  destruct (next_fault (redis_faults w)) as [[] fs]; cbn [fst snd].
  { by intros [= <-]. }
  destruct (redis w !! _) as [en|]; [|by intros [= <-]].
  destruct (now w <? entry_expires en); [|by intros [= <-]].
  destruct (int_ok (entry_value en)); [done | by intros [= <-]].
Qed.

Lemma updateBalanceInCache_error tok v w e :
  fst (updateBalanceInCache tok v w) = Some e -> store_error e.
Proof.
  rewrite updateBalanceInCache_eq.
  destruct (fst (next_fault (redis_faults w))); [by intros [= <-] | done].
Qed.

Lemma refreshBalance_error tok w e :
  fst (refreshBalance tok w) = Some e -> store_error e.
Proof.
  rewrite refreshBalance_eq. cbn zeta.
  destruct (fst (next_fault (db_faults w))); [by intros [= <-]|].
  destruct (compute_balance (db w) tok) as [b [e'|]] eqn:Hb.
  - intros [= <-]. unfold compute_balance in Hb.
    destruct (select_client_ids _ _) as [|id [|id' ids]]; [done | | by injection Hb as _ <-].
    destruct (sum_signed _) as [s|]; [|by injection Hb as _ <-].
    destruct (int_ok s); [done | by injection Hb as _ <-].
  - apply updateBalanceInCache_error.
Qed.

Lemma recordTransaction_error tok amount w e :
  fst (recordTransaction tok amount "PURCHASE" w) = Some e -> store_error e.
Proof.
  rewrite recordTransaction_eq. cbn zeta.
  destruct (fst (next_fault (db_faults w))); [by intros [= <-]|].
  cbn [fst]. unfold insert_transaction.
  destruct (negb (int4_ok amount)); [by intros [= <-]|].
  destruct (select_client_ids _ _) as [|id ids]; [done|].
  change (check_transaction_type "PURCHASE") with (@None error). cbn iota.
  by destruct (insert_rows _ _ _ _ _ _).
Qed.

(** No method of the service ever returns [ErrInvalidToken]. *)
Lemma ErrInvalidToken_never_returned tok amount w :
  fst (DeductTokens tok w) <> Some ErrInvalidToken /\
  fst (AddTokens tok amount w) <> Some ErrInvalidToken /\
  snd (fst (GetBalance tok w)) <> Some ErrInvalidToken.
Proof.
  split; [|split].
  - rewrite DeductTokens_eq. cbn zeta.
    pose proof (getBalanceFromCache_error tok w) as Hg.
    destruct (fst (getBalanceFromCache tok w)) as [b [e|]]; cbn [fst snd] in *.
    { intros [= ->]. by destruct (Hg _ eq_refl). }
    destruct (b <? TokenCost); [done|].
    pose proof (updateBalanceInCache_error tok (int_sub b TokenCost)
                  (redis_called (EvGet (cache_key tok)) w)) as Hu.
    destruct (updateBalanceInCache _ _ _) as [[e|] w2]; cbn [fst] in *; [|done].
    intros [= ->]. by destruct (Hu _ eq_refl).
  - unfold AddTokens, bind.
    pose proof (recordTransaction_error tok amount w) as Hr.
    destruct (recordTransaction _ _ _ w) as [[e|] w1]; cbn [fst] in *.
    { intros [= ->]. by destruct (Hr _ eq_refl). }
    pose proof (refreshBalance_error tok w1) as Hf.
    destruct (refreshBalance tok w1) as [[e|] w2]; cbn [fst] in *; [|done].
    intros [= ->]. by destruct (Hf _ eq_refl).
  - unfold GetBalance, bind.
    pose proof (getBalanceFromCache_error tok w) as Hg.
    destruct (getBalanceFromCache tok w) as [[b [e|]] w1]; cbn [fst snd] in *; [|done].
    case_bool_decide as Hnil.
    + pose proof (refreshBalance_error tok w1) as Hf.
      destruct (refreshBalance tok w1) as [[e'|] w2]; cbn [fst snd] in *.
      { intros [= ->]. by destruct (Hf _ eq_refl). }
      pose proof (getBalanceFromCache_error tok w2) as Hg2.
      destruct (getBalanceFromCache tok w2) as [[b2 [e2|]] w3]; cbn [fst snd] in *; [|done].
      intros [= ->]. by destruct (Hg2 _ eq_refl).
    + cbn [fst snd]. intros [= ->]. by destruct (Hg _ eq_refl).
Qed.

(** On a miss [DeductTokens] returns [redis.Nil] and touches nothing. *)
Lemma DeductTokens_miss tok w :
  fst (next_fault (redis_faults w)) = false ->
  redis w !! cache_key tok = None ->
  fst (DeductTokens tok w) = Some redis_Nil /\
  redis (snd (DeductTokens tok w)) = redis w /\
  db (snd (DeductTokens tok w)) = db w /\
  goroutines (snd (DeductTokens tok w)) = goroutines w.
Proof.
  intros Hnf Hmiss. rewrite DeductTokens_eq. cbn zeta.
  assert (Hget : fst (getBalanceFromCache tok w) = (0, Some redis_Nil)).
  { rewrite getBalanceFromCache_value. unfold redis_Get_Int.
    destruct (next_fault (redis_faults w)) as [f fs]. cbn [fst] in Hnf. subst f.
    by rewrite Hmiss. }
  by rewrite Hget.
Qed.

(** On a hit [GetBalance] returns the balance that [DeductTokens] reads. *)
Lemma GetBalance_hit tok w b :
  fst (getBalanceFromCache tok w) = (b, None) ->
  fst (GetBalance tok w) = (b, None).
Proof.
  intros Hget. unfold GetBalance, bind.
  destruct (getBalanceFromCache tok w) as [r w1]. cbn [fst] in Hget. by subst r.
Qed.

(** * The properties at concrete inputs *)

Lemma DeductTokens_insufficient_witness :
  fst (getBalanceFromCache "tok1" empty_balance_world) = (0, None) /\
  0 < TokenCost /\
  fst (DeductTokens "tok1" empty_balance_world) = Some ErrInsufficientTokens /\
  redis (snd (DeductTokens "tok1" empty_balance_world)) = redis empty_balance_world /\
  db (snd (DeductTokens "tok1" empty_balance_world)) = db empty_balance_world.
Proof.
  split; [reflexivity|]. split; [reflexivity|].
  destruct (DeductTokens_insufficient "tok1" empty_balance_world 0)
    as (H1 & H2 & H3 & _); [reflexivity | reflexivity |].
  split; [exact H1|]. split; [exact H2 | exact H3].
Defined.

Lemma repair_idempotent_witness :
  fault_free expired_world /\
  compute_balance (db expired_world) "tok1" = (100, None) /\
  redis (snd (repeat_refresh 3 "tok1" expired_world))
    = redis (snd (refreshBalance "tok1" expired_world)) /\
  redis (snd (repeat_refresh 3 "tok1" expired_world)) !! cache_key "tok1"
    = Some (mkRedisEntry 100 (0 + RedisCacheTTL)).
Proof.
  assert (Hf : fault_free expired_world) by (split; constructor).
  split; [exact Hf|]. split; [reflexivity|].
  destruct (repair_idempotent "tok1" expired_world 100 2 0 Hf eq_refl)
    as (H1 & H2 & _).
  split; [exact H1 | exact H2].
Defined.

Lemma AddTokens_no_validation_witness :
  select_client_ids (db fresh_world) "tok1" = [1] /\
  fst (recordTransaction "tok1" (-5) "PURCHASE" fresh_world) = None /\
  fst (refreshBalance "tok1"
         (snd (recordTransaction "tok1" (-5) "PURCHASE" fresh_world))) = None /\
  fst (AddTokens "tok1" (-5) fresh_world) = None /\
  token_transactions (db (snd (AddTokens "tok1" (-5) fresh_world)))
    = [mkTokenTransaction 1 1 (-5) "PURCHASE" 0].
Proof.
  split; [reflexivity|]. split; [reflexivity|]. split; [reflexivity|].
  destruct (AddTokens_no_validation "tok1" (-5) fresh_world 1)
    as (H1 & H2 & _); [reflexivity | reflexivity | reflexivity |].
  split; [exact H1 | exact H2].
Defined.

Lemma generateMeme_one_coordinate_witness :
  xorb (negb (main.f64_eqb main.f64_zero main.f64_zero))
       (negb (main.f64_eqb (main.f64_lit (-1278) 4) main.f64_zero)) = true /\
  fst (main.generateMeme ascii_ToLower (fun x => x) (fun x => x) (fun y _ => y)
         unit (fun _ s => (0, s)) "code" main.f64_zero (main.f64_lit (-1278) 4) tt)
    = Some (main.mkMeme 0 "" "" "code" main.f64_zero (main.f64_lit (-1278) 4)).
Proof.
  split; [reflexivity|].
  apply (generateMeme_one_coordinate ascii_ToLower (fun x => x) (fun x => x)
           (fun y _ => y) unit (fun _ s => (0, s)) "code" main.f64_zero
           (main.f64_lit (-1278) 4) tt).
  reflexivity.
Defined.

(** With no coordinate at all the same query selects the fourth entry. *)
Example generateMeme_code_anywhere :
  main.filterMemes ascii_ToLower (fun x => x) (fun x => x) (fun y _ => y)
    "code" main.f64_zero main.f64_zero main.memes
  = [main.mkEntry "That moment when your code compiles on the first try"
       "https://example.com/meme4.jpg"
       (main.f64_lit (-338688) 4) (main.f64_lit 1512093 4)].
Proof. reflexivity. Qed.

(** A top-up while the ledger is down: the error of the INSERT, and the
    cache as it was. *)
Lemma AddTokens_ledger_first_witness :
  fst (recordTransaction "tok1" 100 "PURCHASE" failing_ledger_world)
    = Some pgx_unavailable /\
  fst (AddTokens "tok1" 100 failing_ledger_world) = Some pgx_unavailable /\
  redis (snd (AddTokens "tok1" 100 failing_ledger_world)) = redis failing_ledger_world.
Proof.
  split; [reflexivity|].
  destruct (AddTokens_ledger_first "tok1" 100 failing_ledger_world) as [_ Hfail].
  destruct (Hfail pgx_unavailable eq_refl) as (H1 & H2 & _).
  split; [exact H1 | exact H2].
Defined.

(** * More of the token service *)

(** An admitted deduction, as one equation. *)
Lemma DeductTokens_admitted_eq tok w b :
  fst (getBalanceFromCache tok w) = (b, None) ->
  TokenCost <= b ->
  fst (next_fault (snd (next_fault (redis_faults w)))) = false ->
  DeductTokens tok w =
  (None,
   set_goroutines (goroutines w ++ [GoRecordUsage tok])
     (set_redis (<[cache_key tok := mkRedisEntry (b - 1) (now w + RedisCacheTTL)]> (redis w))
        (redis_called (EvSet (cache_key tok) (b - 1) RedisCacheTTL)
           (redis_called (EvGet (cache_key tok)) w)))).
Proof.
  intros Hget Hb Hnf. rewrite DeductTokens_eq, Hget. cbn zeta.
  apply getBalanceFromCache_hit in Hget as (_ & en & _ & _ & _ & Hok).
  assert (Hlt : (b <? TokenCost) = false) by by apply Z.ltb_ge.
  assert (Hsub : int_sub b TokenCost = b - 1)
    by (apply int_sub_exact; [done | unfold TokenCost in *; lia]).
  rewrite Hlt, Hsub, updateBalanceInCache_eq.
  change (redis_faults (redis_called (EvGet (cache_key tok)) w))
    with (snd (next_fault (redis_faults w))).
  by rewrite Hnf.
Qed.

Lemma redis_up_next w :
  redis_up w ->
  fst (next_fault (redis_faults w)) = false /\
  Forall (fun f => f = false) (snd (next_fault (redis_faults w))).
Proof. apply next_fault_free. Qed.

Lemma int_ok_pred b : int_ok b = true -> 1 <= b -> int_ok (b - 1) = true.
Proof.
  unfold int_ok, int_min, int_max. intros Hok Hb.
  apply andb_prop in Hok as [H1 H2]. apply Z.leb_le in H1, H2.
  apply andb_true_intro. split; apply Z.leb_le; lia.
Qed.

(** X1. A deduction that finds a balance of at least 1 in the cache, with
    a Redis that answers: it returns [nil], the cache entry becomes the
    balance minus 1 with a new 24-hour life, the ledger is not touched, one
    goroutine is started to record the usage, and a [GetBalance] that
    follows returns the balance minus 1. *)
Theorem DeductTokens_admitted tok w b :
  fst (getBalanceFromCache tok w) = (b, None) ->
  TokenCost <= b ->
  redis_up w ->
  fst (DeductTokens tok w) = None /\
  redis (snd (DeductTokens tok w))
    = <[cache_key tok := mkRedisEntry (b - 1) (now w + RedisCacheTTL)]> (redis w) /\
  db (snd (DeductTokens tok w)) = db w /\
  goroutines (snd (DeductTokens tok w)) = goroutines w ++ [GoRecordUsage tok] /\
  fst (GetBalance tok (snd (DeductTokens tok w))) = (b - 1, None).
Proof.
  intros Hget Hb Hup.
  destruct (redis_up_next w Hup) as [_ Hup1].
  destruct (next_fault_free _ Hup1) as [Hnf2 Hup2].
  rewrite (DeductTokens_admitted_eq tok w b Hget Hb Hnf2). cbn [fst snd].
  split; [done|]. split; [done|]. split; [done|]. split; [done|].
  apply GetBalance_hit, getBalanceFromCache_hit.
  split; [by apply next_fault_free|].
  exists (mkRedisEntry (b - 1) (now w + RedisCacheTTL)).
  split; [apply lookup_insert_eq|]. split; [done|].
  split; [cbn; pose proof RedisCacheTTL_pos; lia|].
  apply getBalanceFromCache_hit in Hget as (_ & en & _ & _ & _ & Hok).
  apply int_ok_pred; [done | unfold TokenCost in Hb; lia].
Qed.

Lemma DeductTokens_admitted_witness :
  fst (getBalanceFromCache "tok1" three_tokens_world) = (3, None) /\
  TokenCost <= 3 /\
  redis_up three_tokens_world /\
  fst (DeductTokens "tok1" three_tokens_world) = None /\
  fst (GetBalance "tok1" (snd (DeductTokens "tok1" three_tokens_world))) = (3 - 1, None).
Proof.
  assert (Hup : redis_up three_tokens_world) by constructor.
  assert (Hle : TokenCost <= 3) by discriminate.
  split; [reflexivity|]. split; [exact Hle|]. split; [exact Hup|].
  destruct (DeductTokens_admitted "tok1" three_tokens_world 3 eq_refl Hle Hup)
    as (H1 & _ & _ & _ & H2).
  split; [exact H1 | exact H2].
Defined.

(** X2. Whatever the cache holds and however Redis fails, a value that
    [DeductTokens] writes to the cache is never negative and never the
    result of a wrap-around: it is between 0 and the greatest [int]. *)
Theorem DeductTokens_never_writes_negative tok w :
  extends writes_balance w (snd (DeductTokens tok w)).
Proof.
  rewrite DeductTokens_eq. cbn zeta.
  assert (H1 : extends writes_balance w (redis_called (EvGet (cache_key tok)) w))
    by by apply extends_one with (ev := EvGet (cache_key tok)).
  destruct (fst (getBalanceFromCache tok w)) as [b [e|]] eqn:Hget; [done|].
  destruct (b <? TokenCost) eqn:Hlt; [done|].
  apply Z.ltb_ge in Hlt. unfold TokenCost in Hlt.
  apply getBalanceFromCache_hit in Hget as (_ & en & _ & _ & _ & Hok).
  rewrite int_sub_exact by (unfold TokenCost; done || lia).
  assert (H2 : extends writes_balance (redis_called (EvGet (cache_key tok)) w)
                 (snd (updateBalanceInCache tok (b - TokenCost)
                         (redis_called (EvGet (cache_key tok)) w)))).
  { rewrite updateBalanceInCache_eq.
    apply extends_one with (ev := EvSet (cache_key tok) (b - TokenCost) RedisCacheTTL).
    - unfold writes_balance, TokenCost, int_ok, int_min, int_max in *.
      apply andb_prop in Hok as [Hlo Hhi]. apply Z.leb_le in Hlo, Hhi. lia.
    - by destruct (fst (next_fault _)). }
  destruct (updateBalanceInCache _ _ _) as [[e|] w2]; cbn [snd] in *.
  - by eapply extends_trans.
  - eapply extends_trans; [exact H1|]. eapply extends_trans; [exact H2|].
    by apply extends_refl.
Qed.

(** X3. From a cached balance [c] on a world where nothing fails, [c]
    deductions in a row, each followed by its goroutine, all return [nil];
    the next one returns [ErrInsufficientTokens] and the balance read is
    0. *)
Theorem deductions_exhaust tok id c l w :
  settled tok id c l w -> 0 <= c -> int_ok c = true ->
  exists w', deductions (Z.to_nat c) tok w = (replicate (Z.to_nat c) None, w') /\
    fst (DeductTokens tok w') = Some ErrInsufficientTokens /\
    fst (GetBalance tok w') = (0, None).
Proof.
  intros Hs Hc Hok.
  destruct (deductions_settled (Z.to_nat c) tok id c l w Hs ltac:(lia) Hok)
    as (w' & Hd & Hs').
  exists w'. split; [exact Hd|].
  rewrite Z2Nat.id in Hs' by done. rewrite Z.sub_diag in Hs'.
  destruct Hs' as (_ & Hf & _ & (ex & Hentry & Hlive) & _).
  assert (Hget : fst (getBalanceFromCache tok w') = (0, None)).
  { apply getBalanceFromCache_hit. split; [apply next_fault_free, Hf|].
    by exists (mkRedisEntry 0 ex). }
  split; [|by apply GetBalance_hit].
  by rewrite DeductTokens_eq, Hget.
Qed.

Lemma deductions_exhaust_witness :
  settled "tok1" 1 3 3 three_tokens_world /\
  exists w', deductions 3 "tok1" three_tokens_world = ([None; None; None], w') /\
    fst (DeductTokens "tok1" w') = Some ErrInsufficientTokens /\
    fst (GetBalance "tok1" w') = (0, None).
Proof.
  assert (Hs : settled "tok1" 1 3 3 three_tokens_world).
  { split; [reflexivity|]. split; [split; constructor|]. split; [reflexivity|].
    split; [|reflexivity]. exists RedisCacheTTL. split; reflexivity. }
  split; [exact Hs|].
  apply (deductions_exhaust "tok1" 1 3 3 three_tokens_world Hs);
    [discriminate | reflexivity].
Defined.

(** X6. When Redis refuses the read, [GetBalance] and [DeductTokens] both
    return that error after this one call: neither falls back on the
    ledger, which is not asked anything, and the cache is as it was. *)
Theorem cache_down_no_fallback tok w :
  fst (next_fault (redis_faults w)) = true ->
  GetBalance tok w = ((0, Some redis_unavailable), redis_called (EvGet (cache_key tok)) w) /\
  DeductTokens tok w = (Some redis_unavailable, redis_called (EvGet (cache_key tok)) w) /\
  trace (redis_called (EvGet (cache_key tok)) w) = trace w ++ [EvGet (cache_key tok)] /\
  db_faults (redis_called (EvGet (cache_key tok)) w) = db_faults w /\
  redis (redis_called (EvGet (cache_key tok)) w) = redis w.
Proof.
  intros Hf.
  assert (Hget : fst (getBalanceFromCache tok w) = (0, Some redis_unavailable)).
  { rewrite getBalanceFromCache_value. unfold redis_Get_Int.
    destruct (next_fault (redis_faults w)) as [f fs]. cbn [fst] in Hf. by subst f. }
  split; [|split; [|done]].
  - unfold GetBalance, bind.
    pose proof (getBalanceFromCache_world tok w) as Hw.
    destruct (getBalanceFromCache tok w) as [r w1]. cbn [fst snd] in Hget, Hw.
    by subst r w1.
  - by rewrite DeductTokens_eq, Hget.
Qed.

Lemma cache_down_no_fallback_witness :
  fst (next_fault (redis_faults cache_down_world)) = true /\
  fst (GetBalance "tok1" cache_down_world) = (0, Some redis_unavailable) /\
  fst (DeductTokens "tok1" cache_down_world) = Some redis_unavailable.
Proof.
  split; [reflexivity|].
  destruct (cache_down_no_fallback "tok1" cache_down_world eq_refl) as (H1 & H2 & _).
  split; [by rewrite H1 | by rewrite H2].
Defined.

Lemma cache_entry_lifetime_witness :
  fst ((let* _ := updateBalanceInCache "tok1" 7 in
        let* _ := sleep (RedisCacheTTL - 1) in
        getBalanceFromCache "tok1") fresh_world) = (7, None) /\
  fst ((let* _ := updateBalanceInCache "tok1" 7 in
        let* _ := sleep RedisCacheTTL in
        getBalanceFromCache "tok1") fresh_world) = (0, Some redis_Nil).
Proof.
  split.
  - apply (cache_entry_lifetime "tok1" 7 (RedisCacheTTL - 1) fresh_world);
      [reflexivity | reflexivity | reflexivity | discriminate].
  - apply (cache_entry_lifetime "tok1" 7 RedisCacheTTL fresh_world);
      [reflexivity | reflexivity | reflexivity | discriminate].
Defined.

(** ** What a refresh leaves alone *)

Lemma refreshBalance_frame tok w :
  db (snd (refreshBalance tok w)) = db w /\
  now (snd (refreshBalance tok w)) = now w /\
  refreshChan (snd (refreshBalance tok w)) = refreshChan w /\
  goroutines (snd (refreshBalance tok w)) = goroutines w /\
  stdout (snd (refreshBalance tok w)) = stdout w /\
  (fault_free w -> fault_free (snd (refreshBalance tok w))) /\
  (forall e, fst (refreshBalance tok w) = Some e ->
             redis (snd (refreshBalance tok w)) = redis w).
Proof.
  rewrite refreshBalance_eq. cbn zeta.
  assert (Hdbf : fault_free w -> fault_free (db_called (EvSelectBalance tok) w))
    by apply fault_free_db_called.
  destruct (fst (next_fault (db_faults w))); [done|].
  destruct (compute_balance (db w) tok) as [b [e|]]; [done|].
  rewrite updateBalanceInCache_eq.
  assert (Hrf : fault_free w ->
                fault_free (redis_called (EvSet (cache_key tok) b RedisCacheTTL)
                              (db_called (EvSelectBalance tok) w))).
  { intros Hf. by apply fault_free_redis_called, Hdbf. }
  destruct (fst (next_fault (redis_faults _))); cbn [fst snd]; [done|].
  split; [done|]. split; [done|]. split; [done|]. split; [done|]. split; [done|].
  split; [exact Hrf | discriminate].
Qed.

Lemma refreshBalance_ok_eq tok w b :
  fault_free w ->
  compute_balance (db w) tok = (b, None) ->
  refreshBalance tok w =
  (None,
   set_redis (<[cache_key tok := mkRedisEntry b (now w + RedisCacheTTL)]> (redis w))
     (redis_called (EvSet (cache_key tok) b RedisCacheTTL)
        (db_called (EvSelectBalance tok) w))).
Proof.
  intros [Hd Hr] Hb. rewrite refreshBalance_eq, Hb. cbn zeta.
  destruct (next_fault_free _ Hd) as [-> _].
  rewrite updateBalanceInCache_eq.
  change (redis_faults (db_called (EvSelectBalance tok) w)) with (redis_faults w).
  by destruct (next_fault_free _ Hr) as [-> _].
Qed.

(** X4. [GetBalance] on a miss, with stores that do not fail: it asks the
    cache, asks the ledger, writes the ledger's balance to the cache and
    reads it back, in this order, and returns it; a second [GetBalance]
    returns the same balance from the cache alone. *)
Theorem GetBalance_read_through tok w b :
  fault_free w ->
  fst (getBalanceFromCache tok w) = (0, Some redis_Nil) ->
  compute_balance (db w) tok = (b, None) ->
  fst (GetBalance tok w) = (b, None) /\
  redis (snd (GetBalance tok w))
    = <[cache_key tok := mkRedisEntry b (now w + RedisCacheTTL)]> (redis w) /\
  trace (snd (GetBalance tok w))
    = trace w ++ [EvGet (cache_key tok); EvSelectBalance tok;
                  EvSet (cache_key tok) b RedisCacheTTL; EvGet (cache_key tok)] /\
  GetBalance tok (snd (GetBalance tok w))
    = ((b, None), redis_called (EvGet (cache_key tok)) (snd (GetBalance tok w))).
Proof.
  intros Hf Hmiss Hb.
  set (w1 := redis_called (EvGet (cache_key tok)) w).
  assert (Hf1 : fault_free w1) by by apply fault_free_redis_called.
  set (w2 := set_redis (<[cache_key tok := mkRedisEntry b (now w + RedisCacheTTL)]> (redis w))
               (redis_called (EvSet (cache_key tok) b RedisCacheTTL)
                  (db_called (EvSelectBalance tok) w1))).
  assert (Hf2 : fault_free w2).
  { apply (fault_free_redis_called (EvSet (cache_key tok) b RedisCacheTTL)).
    by apply fault_free_db_called. }
  assert (Hhit : forall w', fault_free w' -> redis w' = redis w2 -> now w' = now w ->
                   fst (getBalanceFromCache tok w') = (b, None)).
  { intros w' Hf' Hr' Hn'. apply getBalanceFromCache_hit.
    split; [apply next_fault_free, Hf'|].
    exists (mkRedisEntry b (now w + RedisCacheTTL)). rewrite Hr'.
    split; [apply lookup_insert_eq|]. split; [done|].
    split; [cbn; rewrite Hn'; pose proof RedisCacheTTL_pos; lia|].
    by apply compute_balance_int_ok in Hb. }
  assert (Heq : GetBalance tok w
                = ((b, None), redis_called (EvGet (cache_key tok)) w2)).
  { unfold GetBalance, bind.
    pose proof (getBalanceFromCache_world tok w) as Hw.
    destruct (getBalanceFromCache tok w) as [r w'] eqn:Hg. cbn [fst snd] in Hmiss, Hw.
    subst r w'. rewrite bool_decide_eq_true_2 by done. fold w1.
    rewrite (refreshBalance_ok_eq tok w1 b Hf1 Hb).
    change (getBalanceFromCache tok w2
            = ((b, None), redis_called (EvGet (cache_key tok)) w2)).
    pose proof (getBalanceFromCache_world tok w2) as Hw2.
    pose proof (Hhit w2 Hf2 eq_refl eq_refl) as Hv2.
    destruct (getBalanceFromCache tok w2) as [r2 w3]. cbn [fst snd] in Hw2, Hv2.
    by subst r2 w3. }
  rewrite Heq. cbn [fst snd].
  split; [done|]. split; [done|]. split.
  - cbn. by rewrite <- !app_assoc.
  - set (w3 := redis_called (EvGet (cache_key tok)) w2).
    assert (Hf3 : fault_free w3) by by apply fault_free_redis_called.
    pose proof (Hhit w3 Hf3 eq_refl eq_refl) as Hv3.
    unfold GetBalance, bind.
    pose proof (getBalanceFromCache_world tok w3) as Hw3.
    destruct (getBalanceFromCache tok w3) as [r3 w4]. cbn [fst snd] in Hw3, Hv3.
    by subst r3 w4.
Qed.

Lemma GetBalance_read_through_witness :
  fault_free expired_world /\
  fst (getBalanceFromCache "tok1" expired_world) = (0, Some redis_Nil) /\
  compute_balance (db expired_world) "tok1" = (100, None) /\
  fst (GetBalance "tok1" expired_world) = (100, None) /\
  trace (snd (GetBalance "tok1" expired_world))
    = trace expired_world
        ++ [EvGet (cache_key "tok1"); EvSelectBalance "tok1";
            EvSet (cache_key "tok1") 100 RedisCacheTTL; EvGet (cache_key "tok1")].
Proof.
  assert (Hf : fault_free expired_world) by (split; constructor).
  split; [exact Hf|]. split; [reflexivity|]. split; [reflexivity|].
  destruct (GetBalance_read_through "tok1" expired_world 100 Hf eq_refl eq_refl)
    as (H1 & _ & H2 & _).
  split; [exact H1 | exact H2].
Defined.

(** X7. [AddTokens] can fail after the purchase is recorded: for a token
    held by one client, when the INSERT succeeds and the refresh that
    follows fails, [AddTokens] returns the error of the refresh, the ledger
    has the new PURCHASE row all the same, and the cache is as it was. *)
Theorem AddTokens_partial_failure tok amount w id e :
  select_client_ids (db w) tok = [id] ->
  fst (recordTransaction tok amount "PURCHASE" w) = None ->
  fst (refreshBalance tok (snd (recordTransaction tok amount "PURCHASE" w))) = Some e ->
  fst (AddTokens tok amount w) = Some e /\
  token_transactions (db (snd (AddTokens tok amount w)))
    = token_transactions (db w)
        ++ [mkTokenTransaction (token_transactions_id_seq (db w) + 1) id amount
                               "PURCHASE" (now w)] /\
  redis (snd (AddTokens tok amount w)) = redis w.
Proof.
  intros Hid Hrec Href. unfold AddTokens, bind.
  destruct (recordTransaction_success _ _ _ _ _ Hid Hrec) as (_ & _ & Hw1).
  destruct (recordTransaction tok amount "PURCHASE" w) as [r w1].
  cbn [fst snd] in Hrec, Href, Hw1. subst r.
  destruct (refreshBalance_frame tok w1) as (Hdb & _ & _ & _ & _ & _ & Hred).
  rewrite Href, Hdb, (Hred e Href). split; [done|].
  by rewrite Hw1.
Qed.

Lemma AddTokens_partial_failure_witness :
  select_client_ids (db refresh_fails_world) "tok1" = [1] /\
  fst (recordTransaction "tok1" 50 "PURCHASE" refresh_fails_world) = None /\
  fst (AddTokens "tok1" 50 refresh_fails_world) = Some pgx_unavailable /\
  token_transactions (db (snd (AddTokens "tok1" 50 refresh_fails_world)))
    = [mkTokenTransaction 1 1 50 "PURCHASE" 0] /\
  redis (snd (AddTokens "tok1" 50 refresh_fails_world)) = redis refresh_fails_world.
Proof.
  split; [reflexivity|]. split; [reflexivity|].
  apply (AddTokens_partial_failure "tok1" 50 refresh_fails_world 1 pgx_unavailable);
    reflexivity.
Defined.

(** X8. The goroutine of a deduction, for a token held by one client and a
    ledger that answers: it returns having added one row to the ledger, a
    USAGE of amount -1 for that client, and it prints nothing, queues
    nothing and leaves the cache alone. *)
Theorem goroutine_records_usage tok w id :
  select_client_ids (db w) tok = [id] ->
  fst (next_fault (db_faults w)) = false ->
  fst (goroutine_step (GoRecordUsage tok) w) = None /\
  token_transactions (db (snd (goroutine_step (GoRecordUsage tok) w)))
    = token_transactions (db w)
        ++ [mkTokenTransaction (token_transactions_id_seq (db w) + 1) id (-1)
                               "USAGE" (now w)] /\
  redis (snd (goroutine_step (GoRecordUsage tok) w)) = redis w /\
  refreshChan (snd (goroutine_step (GoRecordUsage tok) w)) = refreshChan w /\
  stdout (snd (goroutine_step (GoRecordUsage tok) w)) = stdout w.
Proof.
  intros Hid Hnf. cbn [goroutine_step]. unfold bind.
  rewrite recordTransaction_eq. cbn zeta. rewrite Hnf.
  rewrite (insert_transaction_one _ _ _ _ _ _ Hid).
  change (negb (int4_ok (- TokenCost))) with false. cbn iota.
  change (check_transaction_type "USAGE") with (@None error). cbn iota.
  cbn [fst snd ret]. done.
Qed.

Lemma goroutine_records_usage_witness :
  select_client_ids (db three_tokens_world) "tok1" = [1] /\
  fst (next_fault (db_faults three_tokens_world)) = false /\
  fst (goroutine_step (GoRecordUsage "tok1") three_tokens_world) = None /\
  token_transactions (db (snd (goroutine_step (GoRecordUsage "tok1") three_tokens_world)))
    = [mkTokenTransaction 1 1 3 "PURCHASE" 0; mkTokenTransaction 2 1 (-1) "USAGE" 0].
Proof.
  split; [reflexivity|]. split; [reflexivity|].
  destruct (goroutine_records_usage "tok1" three_tokens_world 1 eq_refl eq_refl)
    as (H1 & H2 & _).
  split; [exact H1 | exact H2].
Defined.

(** ** The goroutine of a deduction and the repair worker *)

Lemma goroutine_step_record_fail tok w :
  fst (next_fault (db_faults w)) = true ->
  goroutine_step (GoRecordUsage tok) w =
  (Some (GoSendRefresh tok),
   set_stdout (stdout w ++ ["Error recording transaction: "
                              +:+ error_Error pgx_unavailable +:+ newline])
     (db_called (EvInsert tok (- TokenCost) "USAGE") w)).
Proof.
  intros Hf. cbn [goroutine_step]. unfold bind.
  rewrite recordTransaction_eq. cbn zeta. by rewrite Hf.
Qed.

Lemma goroutine_step_send tok w :
  Z.of_nat (length (refreshChan w)) < CacheRefreshBatch ->
  goroutine_step (GoSendRefresh tok) w
  = (None, set_refreshChan (refreshChan w ++ [tok]) w).
Proof.
  intros Hroom. cbn [goroutine_step]. apply Z.ltb_lt in Hroom. by rewrite Hroom.
Qed.


(** X9. A deduction whose usage cannot be recorded is given back. With a
    live balance [c] of at least 1 in the cache, a ledger that sums to [l]
    and fails once, and an empty channel: the deduction returns [nil], its
    goroutine prints and queues the token, the worker refreshes the cache,
    and the balance read afterwards is [l], with no row added to the
    ledger. *)
Theorem failed_usage_is_repaired tok id c l fs w :
  select_client_ids (db w) tok = [id] ->
  goroutines w = [] ->
  refreshChan w = [] ->
  fst (getBalanceFromCache tok w) = (c, None) ->
  TokenCost <= c ->
  redis_up w ->
  db_faults w = true :: fs ->
  Forall (fun f => f = false) fs ->
  ledger_sum (db w) id = Some l ->
  int_ok l = true ->
  fst (deduct_with_failed_record tok w) = (None, (l, None)) /\
  token_transactions (db (snd (deduct_with_failed_record tok w)))
    = token_transactions (db w) /\
  refreshChan (snd (deduct_with_failed_record tok w)) = [] /\
  goroutines (snd (deduct_with_failed_record tok w)) = [].
Proof.
  intros Hid Hg Hq Hget Hc Hup Hdbf Hfs Hsum Hl.
  destruct (redis_up_next w Hup) as [_ Hup1].
  destruct (next_fault_free _ Hup1) as [Hnf2 Hup2].
  cut (exists w', deduct_with_failed_record tok w = ((None, (l, None)), w') /\
         token_transactions (db w') = token_transactions (db w) /\
         refreshChan w' = [] /\ goroutines w' = []).
  { intros (w' & -> & H1 & H2 & H3). done. }
  unfold deduct_with_failed_record. unfold bind at 1.
  rewrite (DeductTokens_admitted_eq tok w c Hget Hc Hnf2).
  set (w1 := set_goroutines _ _).
  assert (Hg1 : goroutines w1 = [GoRecordUsage tok]) by (cbn; by rewrite Hg).
  unfold bind at 1. rewrite (run_goroutines_one _ w1 Hg1). cbn zeta.
  rewrite goroutine_step_record_fail
    by (change (db_faults (set_goroutines [] w1)) with (db_faults w); by rewrite Hdbf).
  cbn [fst snd]. set (w2 := set_goroutines _ _).
  assert (Hg2 : goroutines w2 = [GoSendRefresh tok]) by reflexivity.
  unfold bind at 1. rewrite (run_goroutines_one _ w2 Hg2). cbn zeta.
  rewrite goroutine_step_send
    by (change (refreshChan (set_goroutines [] w2)) with (refreshChan w);
        by rewrite Hq).
  cbn [fst snd]. set (w3 := set_goroutines _ _).
  assert (Hq3 : refreshChan w3 = [tok])
    by (change (refreshChan w3) with (refreshChan w ++ [tok]); by rewrite Hq).
  assert (Hf3 : fault_free (set_refreshChan [] w3)).
  { split.
    - change (db_faults (set_refreshChan [] w3)) with (snd (next_fault (db_faults w))).
      by rewrite Hdbf.
    - exact Hup2. }
  assert (Hb3 : compute_balance (db (set_refreshChan [] w3)) tok = (l, None)).
  { change (db (set_refreshChan [] w3)) with (db w).
    by rewrite (compute_balance_one _ _ id Hid), Hsum, Hl. }
  unfold bind at 1. rewrite backgroundCacheRefresh_S.
  assert (Hnone : fst (refreshBalance tok (set_refreshChan [] w3)) = None)
    by by rewrite (refreshBalance_ok_eq _ _ l Hf3 Hb3).
  rewrite (backgroundCacheRefresh_iter_ok tok [] w3 Hq3 Hnone). cbn [fst snd].
  rewrite (refreshBalance_ok_eq _ _ l Hf3 Hb3). cbn [snd].
  set (w4 := set_redis _ _).
  rewrite backgroundCacheRefresh_S.
  rewrite (backgroundCacheRefresh_iter_empty w4) by reflexivity. cbn [fst snd].
  assert (Hf4 : fault_free w4).
  { apply (fault_free_redis_called (EvSet (cache_key tok) l RedisCacheTTL)).
    by apply fault_free_db_called. }
  assert (Hv : fst (getBalanceFromCache tok w4) = (l, None)).
  { apply getBalanceFromCache_hit.
    split; [apply next_fault_free, Hf4|].
    exists (mkRedisEntry l (now w + RedisCacheTTL)).
    split; [apply lookup_insert_eq|]. split; [done|].
    split; [cbn; pose proof RedisCacheTTL_pos; lia | done]. }
  assert (Hget4 : fst (GetBalance tok w4) = (l, None)) by by apply GetBalance_hit.
  assert (Hframe : db (snd (GetBalance tok w4)) = db w /\
                   refreshChan (snd (GetBalance tok w4)) = [] /\
                   goroutines (snd (GetBalance tok w4)) = []).
  { unfold GetBalance, bind.
    pose proof (getBalanceFromCache_world tok w4) as Hw.
    destruct (getBalanceFromCache tok w4) as [r w5]. cbn [fst snd] in Hw, Hv.
    subst r w5. done. }
  unfold bind. destruct (GetBalance tok w4) as [r w5]. cbn [fst snd] in Hget4, Hframe.
  subst r. destruct Hframe as (Hd5 & Hq5 & Hg5).
  exists w5. unfold ret. by rewrite Hd5, Hq5, Hg5.
Qed.

Lemma failed_usage_is_repaired_witness :
  fst (getBalanceFromCache "tok1" ledger_down_once_world) = (3, None) /\
  db_faults ledger_down_once_world = [true] /\
  ledger_sum (db ledger_down_once_world) 1 = Some 3 /\
  fst (deduct_with_failed_record "tok1" ledger_down_once_world) = (None, (3, None)) /\
  token_transactions (db (snd (deduct_with_failed_record "tok1" ledger_down_once_world)))
    = token_transactions (db ledger_down_once_world).
Proof.
  split; [reflexivity|]. split; [reflexivity|]. split; [reflexivity|].
  assert (Hup : redis_up ledger_down_once_world) by constructor.
  assert (Hle : TokenCost <= 3) by discriminate.
  destruct (failed_usage_is_repaired "tok1" 1 3 3 [] ledger_down_once_world
              eq_refl eq_refl eq_refl eq_refl Hle Hup eq_refl
              (List.Forall_nil _) eq_refl eq_refl) as (H1 & H2 & _).
  split; [exact H1 | exact H2].
Defined.



(** X13. A repair that fails is dropped: when the refresh of the token at
    the head of the channel fails, the worker prints one line and goes on;
    the token has left the channel and is not queued again, and the cache
    is as it was. *)
Theorem worker_drops_failed_repair tok q w e :
  refreshChan w = tok :: q ->
  fst (refreshBalance tok (set_refreshChan q w)) = Some e ->
  fst (backgroundCacheRefresh_iter w) = true /\
  refreshChan (snd (backgroundCacheRefresh_iter w)) = q /\
  stdout (snd (backgroundCacheRefresh_iter w))
    = stdout w ++ ["Error refreshing cache for token " +:+ tok +:+ ": "
                     +:+ error_Error e +:+ newline] /\
  redis (snd (backgroundCacheRefresh_iter w)) = redis w /\
  db (snd (backgroundCacheRefresh_iter w)) = db w.
Proof.
  intros Hq Hfail. unfold backgroundCacheRefresh_iter. rewrite Hq. unfold bind.
  destruct (refreshBalance_frame tok (set_refreshChan q w))
    as (Hdb & _ & Hchan & _ & Hout & _ & Hred).
  specialize (Hred e Hfail).
  destruct (refreshBalance tok (set_refreshChan q w)) as [r w1].
  cbn [fst snd] in *. subst r. cbn. by rewrite Hchan, Hout, Hred, Hdb.
Qed.

Lemma worker_drops_failed_repair_witness :
  refreshChan repair_fails_world = ["tok1"] /\
  fst (refreshBalance "tok1" (set_refreshChan [] repair_fails_world))
    = Some pgx_unavailable /\
  refreshChan (snd (backgroundCacheRefresh_iter repair_fails_world)) = [] /\
  redis (snd (backgroundCacheRefresh_iter repair_fails_world)) = redis repair_fails_world.
Proof.
  split; [reflexivity|]. split; [reflexivity|].
  destruct (worker_drops_failed_repair "tok1" [] repair_fails_world pgx_unavailable
              eq_refl eq_refl) as (_ & H1 & _ & H2 & _).
  split; [exact H1 | exact H2].
Defined.

(** ** The ledger only grows *)

Lemma ledger_adds_same P w w' : db w' = db w -> ledger_adds P w w'.
Proof.
  intros H. split; [by rewrite H|]. exists []. by rewrite H, app_nil_r.
Qed.

Lemma ledger_adds_trans P w1 w2 w3 :
  ledger_adds P w1 w2 -> ledger_adds P w2 w3 -> ledger_adds P w1 w3.
Proof.
  intros (Hc1 & r1 & H1 & F1) (Hc2 & r2 & H2 & F2).
  split; [by rewrite Hc2|]. exists (r1 ++ r2).
  split; [by rewrite H2, H1, app_assoc | by apply Forall_app].
Qed.

Lemma insert_rows_adds ids amount ty t seq rows :
  exists new,
    fst (insert_rows ids amount ty t seq rows) = rows ++ new /\
    Forall (fun r => TransactionType r = ty /\ Amount r = amount) new.
Proof.
  revert seq rows. induction ids as [|id ids IH]; intros seq rows.
  - exists []. by rewrite app_nil_r.
  - cbn [insert_rows].
    destruct (IH (seq + 1) (rows ++ [mkTokenTransaction (seq + 1) id amount ty t]))
      as (new & -> & Hnew).
    exists (mkTokenTransaction (seq + 1) id amount ty t :: new).
    split; [by rewrite <- app_assoc | by constructor].
Qed.

Lemma recordTransaction_adds tok amount ty w :
  ledger_adds (fun r => TransactionType r = ty /\ Amount r = amount) w
    (snd (recordTransaction tok amount ty w)).
Proof.
  rewrite recordTransaction_eq. cbn zeta.
  destruct (fst (next_fault (db_faults w))); [by apply ledger_adds_same|].
  cbn [snd]. split; [apply insert_transaction_clients|].
  change (db (set_db ?d _)) with d. unfold insert_transaction.
  destruct (negb (int4_ok amount)); [by exists []; rewrite app_nil_r|].
  destruct (select_client_ids (db w) tok) as [|id ids];
    [by exists []; rewrite app_nil_r|].
  destruct (check_transaction_type ty); [by exists []; rewrite app_nil_r|].
  destruct (insert_rows_adds (id :: ids) amount ty (now w)
              (token_transactions_id_seq (db w)) (token_transactions (db w)))
    as (new & Hnew & HF).
  destruct (insert_rows _ _ _ _ _ _) as [rows seq]. cbn [fst snd] in *.
  by exists new.
Qed.

Lemma DeductTokens_db tok w : db (snd (DeductTokens tok w)) = db w.
Proof.
  rewrite DeductTokens_eq. cbn zeta.
  destruct (fst (getBalanceFromCache tok w)) as [b [e|]]; [done|].
  destruct (b <? TokenCost); [done|].
  rewrite updateBalanceInCache_eq.
  by destruct (fst (next_fault _)).
Qed.

Lemma GetBalance_db tok w : db (snd (GetBalance tok w)) = db w.
Proof.
  unfold GetBalance, bind.
  pose proof (getBalanceFromCache_world tok w) as Hw.
  destruct (getBalanceFromCache tok w) as [[b [e|]] w1]; cbn [snd] in Hw; subst w1;
    [|done].
  case_bool_decide; [|done].
  destruct (refreshBalance_frame tok (redis_called (EvGet (cache_key tok)) w))
    as (Hdb & _).
  destruct (refreshBalance tok _) as [[e'|] w2]; cbn [snd] in *; [done|].
  by rewrite getBalanceFromCache_world.
Qed.

Lemma goroutine_step_adds g w :
  ledger_adds usage_row w (snd (goroutine_step g w)).
Proof.
  destruct g as [tok|tok].
  - cbn [goroutine_step]. unfold bind.
    pose proof (recordTransaction_adds tok (- TokenCost) "USAGE" w) as H.
    by destruct (recordTransaction _ _ _ w) as [[e|] w1].
  - cbn [goroutine_step]. apply ledger_adds_same.
    by destruct (_ <? _).
Qed.

Lemma step_all_adds gs w :
  ledger_adds usage_row w (snd (step_all gs w)).
Proof.
  revert w. induction gs as [|g gs IH]; intros w; [by apply ledger_adds_same|].
  cbn [step_all]. unfold bind.
  pose proof (goroutine_step_adds g w) as H1.
  destruct (goroutine_step g w) as [r w1]. cbn [snd] in H1.
  pose proof (IH w1) as H2.
  destruct (step_all gs w1) as [rest w2]. cbn [snd] in *.
  by eapply ledger_adds_trans.
Qed.

(** X11. The ledger is only ever appended to. No method, goroutine or
    worker iteration changes the clients or an existing row; [DeductTokens],
    [GetBalance] and the worker add nothing at all; the rows that
    [AddTokens] adds are PURCHASE rows of its amount and the rows that the
    goroutines add are USAGE rows of amount [-TokenCost]. *)
Theorem ledger_append_only tok amount g w :
  db (snd (DeductTokens tok w)) = db w /\
  db (snd (GetBalance tok w)) = db w /\
  db (snd (backgroundCacheRefresh_iter w)) = db w /\
  ledger_adds (purchase_of amount) w (snd (AddTokens tok amount w)) /\
  ledger_adds usage_row w (snd (goroutine_step g w)) /\
  ledger_adds usage_row w (snd (run_goroutines w)).
Proof.
  split; [apply DeductTokens_db|]. split; [apply GetBalance_db|].
  split.
  { unfold backgroundCacheRefresh_iter.
    destruct (refreshChan w) as [|t q]; [done|]. unfold bind.
    destruct (refreshBalance_frame t (set_refreshChan q w)) as (Hdb & _).
    by destruct (refreshBalance t _) as [[e|] w1]. }
  split.
  { unfold AddTokens, bind.
    pose proof (recordTransaction_adds tok amount "PURCHASE" w) as H1.
    destruct (recordTransaction _ _ _ w) as [[e|] w1]; cbn [snd] in *; [done|].
    eapply ledger_adds_trans; [exact H1|].
    apply ledger_adds_same. by destruct (refreshBalance_frame tok w1) as (Hdb & _). }
  split; [apply goroutine_step_adds|].
  unfold run_goroutines.
  pose proof (step_all_adds (goroutines w) (set_goroutines [] w)) as H.
  by destruct (step_all _ _) as [gs w1].
Qed.

(** * The handlers *)

Section http.

Variable strings_ToLower : string -> string.
Variables math_Sin math_Cos : main.float64 -> main.float64.
Variable math_Atan2 : main.float64 -> main.float64 -> main.float64.
Variable Source : Type.
Variable rand_Intn : Z -> Source -> Z * Source.
Variable strconv_ParseFloat : string -> option main.float64.
Variable Bind_JSON : string -> option (string * Z).

Local Abbreviation getMemeHandler :=
  (main.getMemeHandler strings_ToLower math_Sin math_Cos math_Atan2 Source rand_Intn
     strconv_ParseFloat).
Local Abbreviation GET_memes :=
  (main.GET_memes strings_ToLower math_Sin math_Cos math_Atan2 Source rand_Intn
     strconv_ParseFloat).

Lemma authMiddleware_eq c w :
  main.authMiddleware c w =
  if bool_decide (main.c_Get c "Authorization" = "")
  then (main.Respond 401 (main.ErrorJSON "Missing authorization token"), w)
  else
    (match fst (DeductTokens (main.c_Get c "Authorization") w) with
     | None => main.Next
     | Some ErrInsufficientTokens =>
         main.Respond 402 (main.ErrorJSON "Insufficient tokens")
     | Some ErrInvalidToken =>
         main.Respond 401 (main.ErrorJSON "Invalid authorization token")
     | Some _ => main.Respond 500 (main.ErrorJSON "Internal server error")
     end,
     snd (DeductTokens (main.c_Get c "Authorization") w)).
Proof.
  unfold main.authMiddleware. case_bool_decide; [done|]. unfold bind.
  by destruct (DeductTokens _ w) as [[[]|] w1].
Qed.

(** X14. The answers of [authMiddleware]. Without the header it answers
    401 and touches nothing. With it, the request goes on exactly when
    [DeductTokens] returns [nil], gets 402 exactly when it returns
    [ErrInsufficientTokens], and gets 500 for every other error; the 401 for
    an invalid token is never sent. *)
Theorem authMiddleware_outcomes c w :
  (main.c_Get c "Authorization" = "" ->
   main.authMiddleware c w
     = (main.Respond 401 (main.ErrorJSON "Missing authorization token"), w)) /\
  (fst (main.authMiddleware c w) = main.Next <->
   main.c_Get c "Authorization" <> "" /\
   fst (DeductTokens (main.c_Get c "Authorization") w) = None) /\
  (fst (main.authMiddleware c w)
     = main.Respond 402 (main.ErrorJSON "Insufficient tokens") <->
   main.c_Get c "Authorization" <> "" /\
   fst (DeductTokens (main.c_Get c "Authorization") w) = Some ErrInsufficientTokens) /\
  (forall e,
     main.c_Get c "Authorization" <> "" ->
     fst (DeductTokens (main.c_Get c "Authorization") w) = Some e ->
     e <> ErrInsufficientTokens ->
     fst (main.authMiddleware c w)
       = main.Respond 500 (main.ErrorJSON "Internal server error")) /\
  fst (main.authMiddleware c w)
    <> main.Respond 401 (main.ErrorJSON "Invalid authorization token").
Proof.
  rewrite authMiddleware_eq.
  destruct (ErrInvalidToken_never_returned (main.c_Get c "Authorization") 0 w)
    as (Hnever & _).
  case_bool_decide as Hh.
  - split; [done|]. split; [split; [done | by intros [? _]]|].
    split; [split; [done | by intros [? _]]|]. split; [done|]. done.
  - cbn [fst]. split; [done|].
    destruct (fst (DeductTokens _ w)) as [e|].
    + split; [split; [by destruct e | by intros [_ ?]]|].
      split.
      { split; [by destruct e | by intros [_ [= ->]]]. }
      split; [|by destruct e].
      intros e' _ [= <-] Hne. by destruct e.
    + split; [done|]. split; [split; [done | by intros [_ ?]]|]. split; done.
Qed.

(** X16. A request to /memes that the middleware refuses never reaches
    [getMemeHandler]: with a cached balance below the cost the answer is
    402, the source of random numbers is not drawn from, the cache and the
    ledger are as they were and no goroutine is started. *)
Theorem GET_memes_refused c src w b :
  main.c_Get c "Authorization" <> "" ->
  fst (getBalanceFromCache (main.c_Get c "Authorization") w) = (b, None) ->
  b < TokenCost ->
  fst (GET_memes c src w)
    = (main.Respond 402 (main.ErrorJSON "Insufficient tokens"), src) /\
  redis (snd (GET_memes c src w)) = redis w /\
  db (snd (GET_memes c src w)) = db w /\
  goroutines (snd (GET_memes c src w)) = goroutines w.
Proof.
  intros Hh Hget Hlt. unfold main.GET_memes, bind.
  rewrite authMiddleware_eq, bool_decide_eq_false_2 by done.
  rewrite DeductTokens_eq, Hget. cbn zeta.
  apply Z.ltb_lt in Hlt. rewrite Hlt. done.
Qed.

(** X15. A request to /memes that the middleware admits is charged
    whatever [getMemeHandler] then answers: with a cached balance of at
    least 1 and a Redis that answers, the response is the one of
    [getMemeHandler], a 400 for a latitude that does not parse included, and
    the cached balance is one less. *)
Theorem GET_memes_admitted c src w b :
  main.c_Get c "Authorization" <> "" ->
  fst (getBalanceFromCache (main.c_Get c "Authorization") w) = (b, None) ->
  TokenCost <= b ->
  redis_up w ->
  fst (GET_memes c src w) = getMemeHandler c src /\
  redis (snd (GET_memes c src w))
    = <[cache_key (main.c_Get c "Authorization")
        := mkRedisEntry (b - 1) (now w + RedisCacheTTL)]> (redis w) /\
  (main.c_Query c "lat" "" <> "" ->
   strconv_ParseFloat (main.c_Query c "lat" "") = None ->
   fst (GET_memes c src w)
     = (main.Respond 400 (main.ErrorJSON "Invalid latitude value"), src)).
Proof.
  intros Hh Hget Hb Hup.
  destruct (redis_up_next w Hup) as [_ Hup1].
  destruct (next_fault_free _ Hup1) as [Hnf2 _].
  assert (Heq : GET_memes c src w
                = (getMemeHandler c src,
                   snd (DeductTokens (main.c_Get c "Authorization") w))).
  { unfold main.GET_memes, bind.
    rewrite authMiddleware_eq, bool_decide_eq_false_2 by done.
    by rewrite (DeductTokens_admitted_eq _ w b Hget Hb Hnf2). }
  rewrite Heq. cbn [fst snd]. split; [done|].
  split; [by rewrite (DeductTokens_admitted_eq _ w b Hget Hb Hnf2)|].
  intros Hlat Hparse. unfold main.getMemeHandler. cbn zeta.
  by rewrite bool_decide_eq_false_2, Hparse by done.
Qed.

(** X19. [getMemeHandler] checks the latitude first: a latitude that does
    not parse gives the 400 of the latitude whatever the longitude is; a
    longitude that does not parse gives the 400 of the longitude when the
    latitude is absent or parses; in both cases no random number is
    drawn. *)
Theorem getMemeHandler_coordinates c src :
  (main.c_Query c "lat" "" <> "" ->
   strconv_ParseFloat (main.c_Query c "lat" "") = None ->
   getMemeHandler c src
     = (main.Respond 400 (main.ErrorJSON "Invalid latitude value"), src)) /\
  (main.c_Query c "lon" "" <> "" ->
   strconv_ParseFloat (main.c_Query c "lon" "") = None ->
   (main.c_Query c "lat" "" = "" \/
    exists latitude, strconv_ParseFloat (main.c_Query c "lat" "") = Some latitude) ->
   getMemeHandler c src
     = (main.Respond 400 (main.ErrorJSON "Invalid longitude value"), src)).
Proof.
  unfold main.getMemeHandler. cbn zeta. split.
  - intros Hlat Hparse. by rewrite bool_decide_eq_false_2, Hparse by done.
  - intros Hlon Hparse Hlat.
    assert (Hl : exists latitude,
               (if bool_decide (main.c_Query c "lat" "" = "")
                then Some main.f64_zero
                else strconv_ParseFloat (main.c_Query c "lat" "")) = Some latitude).
    { destruct Hlat as [Hempty|[latitude Hok]].
      - exists main.f64_zero. by rewrite bool_decide_eq_true_2.
      - case_bool_decide; [by exists main.f64_zero | by exists latitude]. }
    destruct Hl as [latitude ->].
    by rewrite (bool_decide_eq_false_2 _ Hlon), Hparse.
Qed.

End http.

(** A top-up with stores that do not fail, for a token held by one
    client. *)
Lemma AddTokens_ok tok id amount s w :
  select_client_ids (db w) tok = [id] ->
  fault_free w ->
  ledger_sum (db w) id = Some s ->
  int4_ok amount = true ->
  int_ok (s + amount) = true ->
  exists w', AddTokens tok amount w = (None, w') /\
    fault_free w' /\ now w' = now w /\
    redis w' !! cache_key tok = Some (mkRedisEntry (s + amount) (now w + RedisCacheTTL)).
Proof.
  intros Hid Hf Hsum Hn Hok. unfold AddTokens, bind.
  rewrite recordTransaction_eq. cbn zeta.
  destruct (next_fault_free _ (proj1 Hf)) as [-> _].
  rewrite (insert_transaction_one _ _ _ _ _ _ Hid), Hn. cbn [negb].
  change (check_transaction_type "PURCHASE") with (@None error). cbn [fst snd].
  set (d1 := mkDatabase _ _ _).
  set (w1 := set_db d1 _).
  assert (Hf1 : fault_free w1)
    by apply (fault_free_db_called (EvInsert tok amount "PURCHASE") w Hf).
  assert (Hsum1 : ledger_sum d1 id = Some (s + amount)).
  { unfold d1. rewrite ledger_sum_append by done. by rewrite Hsum. }
  assert (Hb : compute_balance (db w1) tok = (s + amount, None)).
  { rewrite (compute_balance_one _ _ id) by done.
    change (db w1) with d1. by rewrite Hsum1, Hok. }
  destruct (refreshBalance_ok tok w1 (s + amount) Hf1 Hb)
    as (Hnone & Hred & _ & Hnow & _ & _ & _ & Hf2).
  destruct (refreshBalance tok w1) as [r w2].
  cbn [fst snd] in Hnone, Hred, Hnow, Hf2. subst r.
  exists w2. split; [done|]. split; [done|]. split; [done|].
  rewrite Hred. apply lookup_insert_eq.
Qed.

(** X17. A top-up followed by a balance request, with stores that do not
    fail: for a body that binds to a token held by one client and an amount
    the ledger accepts, POST /tokens/add answers 200 and the GET
    /tokens/balance that follows answers 200 with the signed sum of the
    ledger before the top-up plus the amount, whatever the cache held. *)
Theorem topup_then_balance_round_trip Bind_JSON c c' tok amount id s w :
  Bind_JSON (main.reqBody c) = Some (tok, amount) ->
  main.c_Get c' "Authorization" = tok ->
  tok <> "" ->
  select_client_ids (db w) tok = [id] ->
  fault_free w ->
  ledger_sum (db w) id = Some s ->
  int4_ok amount = true ->
  int_ok (s + amount) = true ->
  fst (topup_then_balance Bind_JSON c c' w)
  = (main.Respond 200 main.StatusText,
     main.Respond 200 (main.BalanceJSON (s + amount))).
Proof.
  intros Hbody Hh Hne Hid Hf Hsum Hn Hok.
  unfold topup_then_balance, bind at 1.
  unfold main.addTokensHandler. rewrite Hbody. unfold bind at 1.
  destruct (AddTokens_ok tok id amount s w Hid Hf Hsum Hn Hok)
    as (w1 & -> & Hf1 & Hnow & Hentry).
  cbn [ret]. unfold bind at 1.
  unfold main.getBalanceHandler. rewrite Hh, bool_decide_eq_false_2 by done.
  assert (Hget : fst (GetBalance tok w1) = (s + amount, None)).
  { apply GetBalance_hit, getBalanceFromCache_hit.
    split; [apply next_fault_free, Hf1|].
    exists (mkRedisEntry (s + amount) (now w + RedisCacheTTL)).
    split; [done|]. split; [done|].
    split; [cbn; rewrite Hnow; pose proof RedisCacheTTL_pos; lia | done]. }
  unfold bind. destruct (GetBalance tok w1) as [r w2]. cbn [fst] in Hget.
  by subst r.
Qed.

(** * More of the meme selector *)

Section selector_more.

Variable strings_ToLower : string -> string.
Variables math_Sin math_Cos : main.float64 -> main.float64.
Variable math_Atan2 : main.float64 -> main.float64 -> main.float64.
Variable Source : Type.
Variable rand_Intn : Z -> Source -> Z * Source.

Local Abbreviation matches query lat lon e :=
  (main.matchesQuery strings_ToLower query e &&
   main.matchesLocation math_Sin math_Cos math_Atan2 lat lon e).
Local Abbreviation filterMemes :=
  (main.filterMemes strings_ToLower math_Sin math_Cos math_Atan2).
Local Abbreviation generateMeme :=
  (main.generateMeme strings_ToLower math_Sin math_Cos math_Atan2 Source rand_Intn).

Lemma filterMemes_In query lat lon ms e :
  In e (filterMemes query lat lon ms) <->
  In e ms /\ matches query lat lon e = true.
Proof.
  induction ms as [|m ms IH]; cbn [main.filterMemes].
  - cbn. tauto.
  - destruct (main.matchesQuery _ query m && main.matchesLocation _ _ _ lat lon m)
      eqn:Hm; cbn [In]; rewrite IH.
    + split; [intros [->|[? ?]]; tauto | intros [[->|?] ?]; tauto].
    + split; [tauto|]. intros [[->|?] Hq]; [congruence | tauto].
Qed.

(** X21. What [generateMeme] returns, when it returns: the query and the
    coordinates it was given, and either the empty Meme, when no entry of
    the catalogue passes both tests, or the title and the URL of one entry
    of the catalogue that passes both tests, with the first number drawn as
    ID. *)
Theorem generateMeme_sound query lat lon src m :
  fst (generateMeme query lat lon src) = Some m ->
  main.Query m = query /\ main.Lat m = lat /\ main.Lon m = lon /\
  ((main.ID m = 0 /\ main.Title m = "" /\ main.URL m = "" /\
    forall e, In e main.memes -> matches query lat lon e = false) \/
   (exists e, In e main.memes /\ matches query lat lon e = true /\
      main.Title m = main.title e /\ main.URL m = main.url e /\
      main.ID m = fst (rand_Intn 1000 src))).
Proof.
  unfold main.generateMeme.
  destruct (rand_Intn 1000 src) as [id src1]. cbn [fst].
  case_bool_decide as Hlen.
  - intros [= <-]. cbn. repeat split. left. repeat split.
    intros e He. destruct (matches query lat lon e) eqn:Hm; [|done].
    assert (Hin : In e (filterMemes query lat lon main.memes))
      by by apply filterMemes_In.
    destruct (filterMemes query lat lon main.memes); [done | discriminate].
  - destruct (rand_Intn _ src1) as [i src2].
    case_bool_decide as Hi; [|done].
    destruct (filterMemes query lat lon main.memes !! Z.to_nat i) as [e|] eqn:He;
      [|done].
    intros [= <-]. cbn. repeat split. right. exists e.
    apply list_elem_of_lookup_2, list_elem_of_In, filterMemes_In in He as [Hin Hm].
    done.
Qed.

(** X20. [generateMeme] does not panic as long as [rand.Intn(n)] returns
    an index below [n]: it always returns a Meme. *)
Theorem generateMeme_total query lat lon src :
  Intn_in_range rand_Intn ->
  exists m, fst (generateMeme query lat lon src) = Some m.
Proof.
  intros Hrange. unfold generateMeme, main.generateMeme.
  destruct (rand_Intn 1000 src) as [id src1].
  case_bool_decide as Hlen; [by eexists|].
  assert (Hpos : 0 < Z.of_nat (length (filterMemes query lat lon main.memes))) by lia.
  pose proof (Hrange _ src1 Hpos) as Hi.
  destruct (rand_Intn _ src1) as [i src2]. cbn [fst] in Hi.
  rewrite bool_decide_eq_true_2 by done.
  destruct (lookup_lt_is_Some_2 (filterMemes query lat lon main.memes) (Z.to_nat i))
    as [e ->]; [lia|]. by eexists.
Qed.

End selector_more.

(** * The handlers and the selector at concrete inputs *)

Lemma GET_memes_admitted_witness :
  main.c_Get bad_latitude_request "Authorization" <> "" /\
  fst (getBalanceFromCache "tok1" three_tokens_world) = (3, None) /\
  redis_up three_tokens_world /\
  fst (main.GET_memes ascii_ToLower (fun x => x) (fun x => x) (fun y _ => y) unit
         (fun _ s => (0, s)) toy_ParseFloat bad_latitude_request tt three_tokens_world)
    = (main.Respond 400 (main.ErrorJSON "Invalid latitude value"), tt) /\
  redis (snd (main.GET_memes ascii_ToLower (fun x => x) (fun x => x) (fun y _ => y)
                unit (fun _ s => (0, s)) toy_ParseFloat bad_latitude_request tt
                three_tokens_world)) !! cache_key "tok1"
    = Some (mkRedisEntry 2 (0 + RedisCacheTTL)).
Proof.
  assert (Hh : main.c_Get bad_latitude_request "Authorization" <> "") by discriminate.
  assert (Hup : redis_up three_tokens_world) by constructor.
  assert (Hle : TokenCost <= 3) by discriminate.
  split; [exact Hh|]. split; [reflexivity|]. split; [exact Hup|].
  destruct (GET_memes_admitted ascii_ToLower (fun x => x) (fun x => x) (fun y _ => y)
              unit (fun _ s => (0, s)) toy_ParseFloat bad_latitude_request tt
              three_tokens_world 3 Hh eq_refl Hle Hup) as (_ & Hred & Hbad).
  split.
  - apply Hbad; [discriminate | reflexivity].
  - rewrite Hred. apply lookup_insert_eq.
Defined.

Lemma GET_memes_refused_witness :
  main.c_Get tok1_request "Authorization" <> "" /\
  fst (getBalanceFromCache "tok1" empty_balance_world) = (0, None) /\
  0 < TokenCost /\
  fst (main.GET_memes ascii_ToLower (fun x => x) (fun x => x) (fun y _ => y) unit
         (fun _ s => (0, s)) toy_ParseFloat tok1_request tt empty_balance_world)
    = (main.Respond 402 (main.ErrorJSON "Insufficient tokens"), tt).
Proof.
  assert (Hh : main.c_Get tok1_request "Authorization" <> "") by discriminate.
  split; [exact Hh|]. split; [reflexivity|]. split; [reflexivity|].
  by destruct (GET_memes_refused ascii_ToLower (fun x => x) (fun x => x)
                 (fun y _ => y) unit (fun _ s => (0, s)) toy_ParseFloat tok1_request
                 tt empty_balance_world 0 Hh eq_refl eq_refl) as (H1 & _).
Defined.

Lemma getMemeHandler_coordinates_witness :
  main.getMemeHandler ascii_ToLower (fun x => x) (fun x => x) (fun y _ => y) unit
    (fun _ s => (0, s)) toy_ParseFloat bad_latitude_request tt
  = (main.Respond 400 (main.ErrorJSON "Invalid latitude value"), tt).
Proof.
  destruct (getMemeHandler_coordinates ascii_ToLower (fun x => x) (fun x => x)
              (fun y _ => y) unit (fun _ s => (0, s)) toy_ParseFloat
              bad_latitude_request tt) as [Hlat _].
  apply Hlat; [discriminate | reflexivity].
Defined.

Lemma topup_then_balance_round_trip_witness :
  select_client_ids (db three_tokens_world) "tok1" = [1] /\
  fault_free three_tokens_world /\
  ledger_sum (db three_tokens_world) 1 = Some 3 /\
  fst (topup_then_balance toy_Bind_JSON tok1_request tok1_request three_tokens_world)
    = (main.Respond 200 main.StatusText, main.Respond 200 (main.BalanceJSON (3 + 10))).
Proof.
  assert (Hf : fault_free three_tokens_world) by (split; constructor).
  split; [reflexivity|]. split; [exact Hf|]. split; [reflexivity|].
  apply (topup_then_balance_round_trip toy_Bind_JSON tok1_request tok1_request
           "tok1" 10 1 3 three_tokens_world);
    [reflexivity | reflexivity | discriminate | reflexivity | exact Hf
    | reflexivity | reflexivity | reflexivity].
Defined.

Lemma generateMeme_sound_witness :
  fst (main.generateMeme ascii_ToLower (fun x => x) (fun x => x) (fun y _ => y) unit
         (fun _ s => (0, s)) "code" main.f64_zero main.f64_zero tt)
    = Some (main.mkMeme 0 "That moment when your code compiles on the first try"
              "https://example.com/meme4.jpg" "code" main.f64_zero main.f64_zero) /\
  main.Query (main.mkMeme 0 "That moment when your code compiles on the first try"
                "https://example.com/meme4.jpg" "code" main.f64_zero main.f64_zero)
    = "code".
Proof.
  split; [reflexivity|].
  by destruct (generateMeme_sound ascii_ToLower (fun x => x) (fun x => x)
                 (fun y _ => y) unit (fun _ s => (0, s)) "code" main.f64_zero
                 main.f64_zero tt _ eq_refl) as (H1 & _).
Defined.

Lemma generateMeme_total_witness :
  Intn_in_range (fun (_ : Z) (s : unit) => (0, s)) /\
  exists m,
    fst (main.generateMeme ascii_ToLower (fun x => x) (fun x => x) (fun y _ => y)
           unit (fun _ s => (0, s)) "" main.f64_zero main.f64_zero tt) = Some m.
Proof.
  assert (Hr : Intn_in_range (fun (_ : Z) (s : unit) => (0, s))).
  { intros n src Hn. cbn. lia. }
  split; [exact Hr|].
  apply (generateMeme_total ascii_ToLower (fun x => x) (fun x => x) (fun y _ => y)
           unit (fun _ s => (0, s)) "" main.f64_zero main.f64_zero tt Hr).
Defined.

(** * Distances *)

Lemma f64_sub_diag x :
  f64_is_finite x = true -> main.f64_sub x x = main.f64_zero.
Proof.
  destruct x as [s|s| |s m e]; try discriminate; intros _.
  - by destruct s.
  - unfold main.f64_sub, SFsub. cbv zeta. by rewrite Z.sub_diag.
Qed.

Lemma f64_mul_zero_r x :
  f64_is_finite x = true ->
  exists s, main.f64_mul x main.f64_zero = S754_zero s.
Proof.
  destruct x as [s|s| |s m e]; try discriminate; intros _; by eexists.
Qed.

(** *** The product of two floats between -1 and 1 does not overflow *)

Lemma digits2_pos_bounds p :
  2 ^ (Zpos (digits2_pos p) - 1) <= Zpos p < 2 ^ Zpos (digits2_pos p).
Proof.
  induction p as [p IH|p IH|]; cbn [digits2_pos].
  - rewrite Pos2Z.inj_succ.
    replace (Z.succ (Zpos (digits2_pos p)) - 1)
      with (Z.succ (Zpos (digits2_pos p) - 1)) by lia.
    rewrite !Z.pow_succ_r by lia. lia.
  - rewrite Pos2Z.inj_succ.
    replace (Z.succ (Zpos (digits2_pos p)) - 1)
      with (Z.succ (Zpos (digits2_pos p) - 1)) by lia.
    rewrite !Z.pow_succ_r by lia. lia.
  - cbn. lia.
Qed.

Lemma Zdigits2_le m k : 0 <= m < 2 ^ k -> 0 <= k -> Zdigits2 m <= k.
Proof.
  intros [Hm Hlt] Hk. destruct m as [|p|p]; cbn [Zdigits2]; [lia| |lia].
  destruct (digits2_pos_bounds p) as [Hlo _].
  assert (H : 2 ^ (Zpos (digits2_pos p) - 1) < 2 ^ k) by lia.
  apply Z.pow_lt_mono_r_iff in H; lia.
Qed.

Lemma iter_pos_invariant {A} (P : A -> Prop) (f : A -> A) :
  (forall x, P x -> P (f x)) -> forall n x, P x -> P (SpecFloat.iter_pos f n x).
Proof.
  intros Hf. induction n as [n IH|n IH|]; intros x Hx; cbn [SpecFloat.iter_pos]; auto.
Qed.

(** A shift to the right keeps a mantissa between 0 and what it was. *)
Lemma shr_1_bounds M mrs :
  0 <= shr_m mrs <= M -> 0 <= shr_m (shr_1 mrs) <= M.
Proof.
  destruct mrs as [m r s]. cbn [shr_m]. intros Hm.
  destruct m as [|[p|p|]|p]; cbn [shr_1 shr_m]; lia.
Qed.

(** The mantissa and the exponent after the shift that rounding makes. *)
Lemma shr_fexp_bounds m e l :
  0 <= m ->
  0 <= shr_m (fst (shr_fexp 53 1024 m e l)) <= m /\
  snd (shr_fexp 53 1024 m e l) = Z.max e (fexp 53 1024 (Zdigits2 m + e)).
Proof.
  intros Hm. unfold shr_fexp, shr.
  assert (H0 : 0 <= shr_m (shr_record_of_loc m l) <= m).
  { destruct l as [|[]]; cbn; lia. }
  destruct (fexp 53 1024 (Zdigits2 m + e) - e)%Z as [|p|p] eqn:Hn; cbn [fst snd].
  - split; [exact H0 | lia].
  - split; [|lia]. apply iter_pos_invariant; [apply shr_1_bounds | exact H0].
  - split; [exact H0 | lia].
Qed.

Lemma round_nearest_even_bounds m l :
  0 <= m -> 0 <= round_nearest_even m l <= m + 1.
Proof.
  intros Hm. destruct l as [|[]]; cbn [round_nearest_even]; try lia.
  destruct (Z.even m); lia.
Qed.

(** Rounding a mantissa below 2^106 with an exponent of at most -104 gives
    a zero or a finite float64. *)
Lemma binary_round_aux_finite s m e :
  0 < m < 2 ^ 106 -> e <= -104 ->
  f64_is_finite (binary_round_aux 53 1024 s m e loc_Exact) = true.
Proof.
  intros Hm He. unfold binary_round_aux.
  destruct (shr_fexp_bounds m e loc_Exact ltac:(lia)) as [Hm1 He1].
  destruct (shr_fexp 53 1024 m e loc_Exact) as [mrs1 e1]. cbn [fst snd] in Hm1, He1.
  pose proof (round_nearest_even_bounds (shr_m mrs1) (loc_of_shr_record mrs1)
                ltac:(lia)) as Hr.
  set (m1 := round_nearest_even _ _) in *.
  destruct (shr_fexp_bounds m1 e1 loc_Exact ltac:(lia)) as [Hm2 He2].
  destruct (shr_fexp 53 1024 m1 e1 loc_Exact) as [mrs2 e2]. cbn [fst snd] in Hm2, He2.
  assert (Hd : Zdigits2 m <= 106) by (apply Zdigits2_le; lia).
  assert (Hd1 : Zdigits2 m1 <= 107).
  { apply Zdigits2_le; [|lia]. split; [lia|].
    replace (2 ^ 107) with (2 * 2 ^ 106) by reflexivity. lia. }
  unfold fexp, emin in He1, He2.
  destruct (shr_m mrs2) as [|p|p]; [reflexivity| |lia].
  assert (Hle : (e2 <=? 1024 - 53) = true) by (apply Z.leb_le; lia).
  by rewrite Hle.
Qed.

(** A float64 has a mantissa of at most 53 bits. *)
Lemma valid_mantissa s m e :
  valid_binary 53 1024 (S754_finite s m e) = true -> Zpos m < 2 ^ 53.
Proof.
  cbn [valid_binary]. unfold bounded, canonical_mantissa, fexp, emin.
  intros H. apply andb_prop in H as [Hc _]. apply Z.eqb_eq in Hc.
  assert (Hd : Zpos (digits2_pos m) <= 53) by lia.
  destruct (digits2_pos_bounds m) as [_ Hhi].
  eapply Z.lt_le_trans; [exact Hhi|]. apply Z.pow_le_mono_r; lia.
Qed.

(** A float of absolute value at most 1 has an exponent of at most -52. *)
Lemma unit_exponent s m e :
  main.f64_leb (math_Abs (S754_finite s m e)) (main.f64_of_Z 1) = true -> e <= -52.
Proof.
  intros H. destruct (Z.compare_spec e (-52)) as [->|Hlt|Hgt]; [lia | lia |].
  exfalso. apply Z.compare_gt_iff in Hgt.
  change (main.f64_of_Z 1) with (S754_finite false 4503599627370496 (-52)) in H.
  unfold main.f64_leb, math_Abs, SFleb in H. cbn [SFabs SFcompare] in H.
  change (IntDef.Z.compare e (-52)) with (e ?= -52) in H.
  rewrite Hgt in H. discriminate.
Qed.

Lemma f64_mul_unit_finite a b :
  valid_binary 53 1024 a = true -> valid_binary 53 1024 b = true ->
  main.f64_leb (math_Abs a) (main.f64_of_Z 1) = true ->
  main.f64_leb (math_Abs b) (main.f64_of_Z 1) = true ->
  f64_is_finite (main.f64_mul a b) = true.
Proof.
  intros Va Vb La Lb.
  destruct a as [sa|sa| |sa ma ea]; try discriminate;
  destruct b as [sb|sb| |sb mb eb]; try discriminate; try reflexivity.
  unfold main.f64_mul. cbn [SFmul].
  apply binary_round_aux_finite.
  - pose proof (valid_mantissa _ _ _ Va). pose proof (valid_mantissa _ _ _ Vb).
    rewrite Pos2Z.inj_mul. split; [lia|].
    replace (2 ^ 106) with (2 ^ 53 * 2 ^ 53) by reflexivity.
    apply Z.mul_lt_mono_nonneg; lia.
  - apply unit_exponent in La, Lb. lia.
Qed.

Section distances.

Variable strings_ToLower : string -> string.
Variables math_Sin math_Cos : main.float64 -> main.float64.
Variable math_Atan2 : main.float64 -> main.float64 -> main.float64.
Variable Source : Type.
Variable rand_Intn : Z -> Source -> Z * Source.

Local Abbreviation calculateDistance :=
  (main.calculateDistance math_Sin math_Cos math_Atan2).

(** The formula once the two differences are +0. *)
Lemma haversine_zero r1 r2 :
  math_contract math_Sin math_Cos math_Atan2 ->
  f64_is_finite r1 = true ->
  f64_is_finite r2 = true ->
  main.f64_mul main.earthRadius
    (main.f64_mul (main.f64_of_Z 2)
       (math_Atan2
          (main.math_Sqrt
             (main.f64_add
                (main.f64_mul (math_Sin (main.f64_div main.f64_zero (main.f64_of_Z 2)))
                              (math_Sin (main.f64_div main.f64_zero (main.f64_of_Z 2))))
                (main.f64_mul
                   (main.f64_mul (main.f64_mul (math_Cos r1) (math_Cos r2))
                      (math_Sin (main.f64_div main.f64_zero (main.f64_of_Z 2))))
                   (math_Sin (main.f64_div main.f64_zero (main.f64_of_Z 2))))))
          (main.math_Sqrt
             (main.f64_sub (main.f64_of_Z 1)
                (main.f64_add
                   (main.f64_mul (math_Sin (main.f64_div main.f64_zero (main.f64_of_Z 2)))
                                 (math_Sin (main.f64_div main.f64_zero (main.f64_of_Z 2))))
                   (main.f64_mul
                      (main.f64_mul (main.f64_mul (math_Cos r1) (math_Cos r2))
                         (math_Sin (main.f64_div main.f64_zero (main.f64_of_Z 2))))
                      (math_Sin (main.f64_div main.f64_zero (main.f64_of_Z 2)))))))))
  = main.f64_zero.
Proof.
  intros (Hsin & Hatan & Hcos) Hr1 Hr2.
  change (main.f64_div main.f64_zero (main.f64_of_Z 2)) with main.f64_zero.
  rewrite Hsin.
  destruct (Hcos r1 Hr1) as [V1 L1]. destruct (Hcos r2 Hr2) as [V2 L2].
  destruct (f64_mul_zero_r _ (f64_mul_unit_finite _ _ V1 V2 L1 L2)) as [s ->].
  assert (Ha : main.f64_add (main.f64_mul main.f64_zero main.f64_zero)
                 (main.f64_mul (S754_zero s) main.f64_zero) = main.f64_zero)
    by by destruct s.
  rewrite Ha.
  change (main.math_Sqrt main.f64_zero) with main.f64_zero.
  change (main.math_Sqrt (main.f64_sub (main.f64_of_Z 1) main.f64_zero))
    with (main.f64_of_Z 1).
  by rewrite Hatan.
Qed.

(** X5. The distance from a point to itself is exactly +0, for every
    point whose coordinates in radians are finite, as soon as package math
    keeps its special cases. *)
Theorem calculateDistance_same_point lat lon :
  math_contract math_Sin math_Cos math_Atan2 ->
  f64_is_finite (to_radians lat) = true ->
  f64_is_finite (to_radians lon) = true ->
  calculateDistance lat lon lat lon = main.f64_zero.
Proof.
  intros Hmath Hlat Hlon.
  unfold main.calculateDistance. cbv zeta.
  change (main.f64_div (main.f64_mul lat main.math_Pi) (main.f64_of_Z 180))
    with (to_radians lat).
  change (main.f64_div (main.f64_mul lon main.math_Pi) (main.f64_of_Z 180))
    with (to_radians lon).
  rewrite (f64_sub_diag _ Hlat), (f64_sub_diag _ Hlon).
  by apply haversine_zero.
Qed.

Lemma memes_located e :
  In e main.memes ->
  main.f64_eqb (main.memeLat e) main.f64_zero = false /\
  main.f64_eqb (main.memeLon e) main.f64_zero = false /\
  f64_is_finite (to_radians (main.memeLat e)) = true /\
  f64_is_finite (to_radians (main.memeLon e)) = true /\
  main.title e <> "".
Proof.
  intros [<-|[<-|[<-|[<-|[]]]]]; repeat split; (reflexivity || discriminate).
Qed.

(** X18. A request at the exact coordinates of an entry of the catalogue,
    with no query, never gets the empty Meme: the entry passes the location
    test with a distance of 0, so a Meme with a title is returned; this
    assumes the special cases of package math and a [rand.Intn] in
    range. *)
Theorem generateMeme_at_catalogue_location e src :
  math_contract math_Sin math_Cos math_Atan2 ->
  Intn_in_range rand_Intn ->
  In e main.memes ->
  main.matchesLocation math_Sin math_Cos math_Atan2
    (main.memeLat e) (main.memeLon e) e = true /\
  exists m,
    fst (main.generateMeme strings_ToLower math_Sin math_Cos math_Atan2 Source
           rand_Intn "" (main.memeLat e) (main.memeLon e) src) = Some m /\
    main.Title m <> "".
Proof.
  intros Hmath Hrange He.
  destruct (memes_located e He) as (Hlat0 & Hlon0 & Hlat & Hlon & _).
  assert (Hloc : main.matchesLocation math_Sin math_Cos math_Atan2
                   (main.memeLat e) (main.memeLon e) e = true).
  { unfold main.matchesLocation. rewrite Hlat0, Hlon0. cbn [negb andb orb].
    unfold main.calculateDistance. cbv zeta.
    change (main.f64_div (main.f64_mul (main.memeLat e) main.math_Pi)
              (main.f64_of_Z 180)) with (to_radians (main.memeLat e)).
    change (main.f64_div (main.f64_mul (main.memeLon e) main.math_Pi)
              (main.f64_of_Z 180)) with (to_radians (main.memeLon e)).
    rewrite (f64_sub_diag _ Hlat), (f64_sub_diag _ Hlon).
    by rewrite haversine_zero. }
  split; [exact Hloc|].
  assert (Hin : In e (main.filterMemes strings_ToLower math_Sin math_Cos math_Atan2
                        "" (main.memeLat e) (main.memeLon e) main.memes)).
  { apply (proj2 (filterMemes_In strings_ToLower math_Sin math_Cos math_Atan2
                     "" (main.memeLat e) (main.memeLon e) main.memes e)).
    split; [done|]. unfold main.matchesQuery. by rewrite Hloc. }
  unfold main.generateMeme.
  destruct (rand_Intn 1000 src) as [id src1].
  set (filtered := main.filterMemes _ _ _ _ _ _ _ _) in *.
  assert (Hlen : length filtered <> 0%nat) by by destruct filtered.
  rewrite bool_decide_eq_false_2 by done.
  assert (Hpos : 0 < Z.of_nat (length filtered)) by lia.
  pose proof (Hrange _ src1 Hpos) as Hi.
  destruct (rand_Intn _ src1) as [i src2]. cbn [fst] in Hi.
  rewrite bool_decide_eq_true_2 by done.
  destruct (lookup_lt_is_Some_2 filtered (Z.to_nat i)) as [e' He']; [lia|].
  rewrite He'. eexists. split; [reflexivity|]. cbn [main.Title].
  apply list_elem_of_lookup_2, list_elem_of_In in He'.
  apply (proj1 (filterMemes_In strings_ToLower math_Sin math_Cos math_Atan2
                  "" (main.memeLat e) (main.memeLon e) main.memes e')) in He'
    as [He'in _].
  by destruct (memes_located e' He'in) as (_ & _ & _ & _ & Ht).
Qed.

End distances.

Lemma calculateDistance_same_point_witness :
  math_contract (fun x => x) (fun _ => main.f64_of_Z 1) (fun y _ => y) /\
  f64_is_finite (to_radians (main.f64_lit 407128 4)) = true /\
  f64_is_finite (to_radians (main.f64_lit (-740060) 4)) = true /\
  main.calculateDistance (fun x => x) (fun _ => main.f64_of_Z 1) (fun y _ => y)
    (main.f64_lit 407128 4) (main.f64_lit (-740060) 4)
    (main.f64_lit 407128 4) (main.f64_lit (-740060) 4) = main.f64_zero.
Proof.
  assert (Hc : math_contract (fun x => x) (fun _ => main.f64_of_Z 1) (fun y _ => y)).
  { split; [reflexivity|]. split; [reflexivity|]. intros x _. split; reflexivity. }
  split; [exact Hc|]. split; [reflexivity|]. split; [reflexivity|].
  apply (calculateDistance_same_point (fun x => x) (fun _ => main.f64_of_Z 1)
           (fun y _ => y) (main.f64_lit 407128 4) (main.f64_lit (-740060) 4) Hc);
    reflexivity.
Defined.

Lemma generateMeme_at_catalogue_location_witness :
  math_contract (fun x => x) (fun _ => main.f64_of_Z 1) (fun y _ => y) /\
  Intn_in_range (fun (_ : Z) (s : unit) => (0, s)) /\
  exists m,
    fst (main.generateMeme ascii_ToLower (fun x => x) (fun _ => main.f64_of_Z 1)
           (fun y _ => y) unit (fun _ s => (0, s)) ""
           (main.f64_lit 515074 4) (main.f64_lit (-1278) 4) tt) = Some m /\
    main.Title m <> "".
Proof.
  assert (Hc : math_contract (fun x => x) (fun _ => main.f64_of_Z 1) (fun y _ => y)).
  { split; [reflexivity|]. split; [reflexivity|]. intros x _. split; reflexivity. }
  assert (Hr : Intn_in_range (fun (_ : Z) (s : unit) => (0, s))).
  { intros n src Hn. cbn. lia. }
  split; [exact Hc|]. split; [exact Hr|].
  destruct (generateMeme_at_catalogue_location ascii_ToLower (fun x => x)
              (fun _ => main.f64_of_Z 1) (fun y _ => y) unit (fun _ s => (0, s))
              (main.mkEntry "Coding at 2am be like..." "https://example.com/meme2.jpg"
                 (main.f64_lit 515074 4) (main.f64_lit (-1278) 4))
              tt Hc Hr) as [_ Hm]; [right; left; reflexivity|].
  exact Hm.
Defined.

(** * What decides a deduction *)

(** What every call of [DeductTokens] leaves alone. *)
Lemma DeductTokens_frame tok w :
  db (snd (DeductTokens tok w)) = db w /\
  db_faults (snd (DeductTokens tok w)) = db_faults w /\
  now (snd (DeductTokens tok w)) = now w /\
  refreshChan (snd (DeductTokens tok w)) = refreshChan w /\
  stdout (snd (DeductTokens tok w)) = stdout w.
Proof.
  rewrite DeductTokens_eq. cbn zeta.
  destruct (fst (getBalanceFromCache tok w)) as [b [e|]]; [done|].
  destruct (b <? TokenCost); [done|].
  rewrite updateBalanceInCache_eq.
  by destruct (fst (next_fault _)).
Qed.

Lemma insert_transaction_error tok amount ty t d e :
  fst (insert_transaction tok amount ty t d) = Some e ->
  snd (insert_transaction tok amount ty t d) = d.
Proof.
  unfold insert_transaction. destruct (negb (int4_ok amount)); [reflexivity|].
  destruct (select_client_ids d tok) as [|id ids]; [reflexivity|].
  destruct (check_transaction_type ty); [reflexivity|].
  destruct (insert_rows _ _ _ _ _ _). discriminate.
Qed.

(** The answer of the ledger to an INSERT depends on the ledger, its fault
    script and the clock only. *)
Lemma recordTransaction_answer tok amount ty w w' :
  db w' = db w -> db_faults w' = db_faults w -> now w' = now w ->
  fst (recordTransaction tok amount ty w') = fst (recordTransaction tok amount ty w).
Proof.
  intros Hd Hf Hn. rewrite !recordTransaction_eq. cbn zeta. rewrite Hd, Hf, Hn.
  by destruct (fst (next_fault (db_faults w))).
Qed.

(** The goroutine of a deduction when the INSERT fails, whatever the
    error. *)
Lemma goroutine_step_record_error tok w e :
  fst (recordTransaction tok (- TokenCost) "USAGE" w) = Some e ->
  fst (goroutine_step (GoRecordUsage tok) w) = Some (GoSendRefresh tok) /\
  stdout (snd (goroutine_step (GoRecordUsage tok) w))
    = stdout w ++ ["Error recording transaction: " +:+ error_Error e +:+ newline] /\
  redis (snd (goroutine_step (GoRecordUsage tok) w)) = redis w /\
  db (snd (goroutine_step (GoRecordUsage tok) w)) = db w /\
  now (snd (goroutine_step (GoRecordUsage tok) w)) = now w /\
  refreshChan (snd (goroutine_step (GoRecordUsage tok) w)) = refreshChan w /\
  goroutines (snd (goroutine_step (GoRecordUsage tok) w)) = goroutines w.
Proof.
  intros Hrec. cbn [goroutine_step]. unfold bind.
  rewrite recordTransaction_eq in Hrec |- *. cbn zeta in Hrec |- *.
  destruct (fst (next_fault (db_faults w))).
  - cbn [fst] in Hrec. injection Hrec as <-. done.
  - cbn [fst] in Hrec. rewrite Hrec.
    cbn [snd]. by rewrite (insert_transaction_error _ _ _ _ _ _ Hrec).
Qed.

(** C4. What [DeductTokens] returns is decided by the read of the cache,
    the comparison and the write of the cache, and by nothing else.
    - It returns [nil] exactly when the read succeeds, the balance read is
      at least the cost and the write of balance - cost succeeds; then that
      write has reached the cache, under the key of the client and for 24
      hours, and one goroutine was started to record the usage.
    - When it returns an error, this is the error of the read,
      [ErrInsufficientTokens], or the error of the write; the cache is as it
      was and no goroutine was started.
    - It asks nothing of the ledger: its result is the same whatever the
      ledger holds and however the ledger will fail.
    - When the goroutine of the call then fails to record the usage, the
      call has returned [nil] all the same; the goroutine prints one line
      and sends the token on the channel, and leaves the cache as the call
      wrote it. *)
Theorem DeductTokens_result tok w :
  (fst (DeductTokens tok w) = None <->
   exists b, fst (getBalanceFromCache tok w) = (b, None) /\ TokenCost <= b /\
     fst (updateBalanceInCache tok (b - TokenCost)
            (snd (getBalanceFromCache tok w))) = None) /\
  (forall b,
     fst (getBalanceFromCache tok w) = (b, None) ->
     fst (DeductTokens tok w) = None ->
     redis (snd (DeductTokens tok w))
       = <[cache_key tok := mkRedisEntry (b - TokenCost) (now w + RedisCacheTTL)]>
           (redis w) /\
     goroutines (snd (DeductTokens tok w)) = goroutines w ++ [GoRecordUsage tok] /\
     trace (snd (DeductTokens tok w))
       = trace w ++ [EvGet (cache_key tok);
                     EvSet (cache_key tok) (b - TokenCost) RedisCacheTTL]) /\
  (forall e,
     fst (DeductTokens tok w) = Some e ->
     redis (snd (DeductTokens tok w)) = redis w /\
     goroutines (snd (DeductTokens tok w)) = goroutines w /\
     (snd (fst (getBalanceFromCache tok w)) = Some e \/
      (exists b, fst (getBalanceFromCache tok w) = (b, None) /\ b < TokenCost /\
                 e = ErrInsufficientTokens) \/
      (exists b, fst (getBalanceFromCache tok w) = (b, None) /\ TokenCost <= b /\
                 fst (updateBalanceInCache tok (b - TokenCost)
                        (snd (getBalanceFromCache tok w))) = Some e))) /\
  (forall d f,
     fst (DeductTokens tok (set_db d (set_db_faults f w))) = fst (DeductTokens tok w)) /\
  db (snd (DeductTokens tok w)) = db w /\
  db_faults (snd (DeductTokens tok w)) = db_faults w /\
  (forall w0 e,
     fst (recordTransaction tok (- TokenCost) "USAGE" w0) = Some e ->
     let r := goroutine_step (GoRecordUsage tok) w0 in
     fst r = Some (GoSendRefresh tok) /\
     stdout (snd r) =
       stdout w0 ++ ["Error recording transaction: " +:+ error_Error e +:+ newline] /\
     redis (snd r) = redis w0 /\
     (Z.of_nat (length (refreshChan w0)) < CacheRefreshBatch ->
      fst (goroutine_step (GoSendRefresh tok) (snd r)) = None /\
      refreshChan (snd (goroutine_step (GoSendRefresh tok) (snd r)))
        = refreshChan w0 ++ [tok])) /\
  (forall e,
     goroutines w = [] ->
     fst (DeductTokens tok w) = None ->
     fst (recordTransaction tok (- TokenCost) "USAGE" w) = Some e ->
     Z.of_nat (length (refreshChan w)) < CacheRefreshBatch ->
     fst (deduct_recorded tok w) = None /\
     goroutines (snd (deduct_recorded tok w)) = [GoSendRefresh tok] /\
     stdout (snd (deduct_recorded tok w))
       = stdout w ++ ["Error recording transaction: " +:+ error_Error e +:+ newline] /\
     refreshChan (snd (deduct_recorded tok w)) = refreshChan w /\
     redis (snd (deduct_recorded tok w)) = redis (snd (DeductTokens tok w)) /\
     db (snd (deduct_recorded tok w)) = db w /\
     goroutines (snd (run_goroutines (snd (deduct_recorded tok w)))) = [] /\
     refreshChan (snd (run_goroutines (snd (deduct_recorded tok w))))
       = refreshChan w ++ [tok] /\
     redis (snd (run_goroutines (snd (deduct_recorded tok w))))
       = redis (snd (DeductTokens tok w)) /\
     db (snd (run_goroutines (snd (deduct_recorded tok w)))) = db w).
Proof.
  destruct (DeductTokens_decided tok w) as (Hiff & Hindep & Hdb & Hdbf & Hgo).
  split; [exact Hiff|].
  split.
  { intros b Hget Hnone. apply Hiff in Hnone as (b' & Hget' & Hb & Hset).
    rewrite Hget in Hget'. injection Hget' as <-.
    rewrite getBalanceFromCache_world, updateBalanceInCache_eq in Hset.
    change (redis_faults (redis_called (EvGet (cache_key tok)) w))
      with (snd (next_fault (redis_faults w))) in Hset.
    destruct (fst (next_fault (snd (next_fault (redis_faults w))))) eqn:Hnf;
      [discriminate|].
    rewrite (DeductTokens_admitted_eq tok w b Hget Hb Hnf). cbn [snd].
    unfold TokenCost. split; [done|]. split; [done|].
    cbn. by rewrite <- app_assoc. }
  split.
  { intros e He. rewrite DeductTokens_eq in He |- *. cbn zeta in He |- *.
    rewrite getBalanceFromCache_world.
    destruct (fst (getBalanceFromCache tok w)) as [b [e'|]] eqn:Hget.
    { cbn [fst snd] in *. injection He as <-. split; [done|]. split; [done|].
      by left. }
    destruct (b <? TokenCost) eqn:Hlt.
    { cbn [fst snd] in *. injection He as <-. split; [done|]. split; [done|].
      right; left. exists b. apply Z.ltb_lt in Hlt. done. }
    apply Z.ltb_ge in Hlt.
    apply getBalanceFromCache_hit in Hget as Hhit.
    destruct Hhit as (_ & en & _ & _ & _ & Hok).
    assert (Hsub : int_sub b TokenCost = b - TokenCost)
      by (apply int_sub_exact; [done | unfold TokenCost in *; lia]).
    rewrite Hsub in He |- *.
    rewrite updateBalanceInCache_eq in He |- *.
    destruct (fst (next_fault (redis_faults _))) eqn:Hnf; cbn [fst snd] in *;
      [|discriminate].
    injection He as <-. split; [done|]. split; [done|].
    right; right. exists b. split; [done|]. split; [done|].
    by rewrite updateBalanceInCache_eq, Hnf. }
  split; [exact Hindep|]. split; [exact Hdb|]. split; [exact Hdbf|].
  split; [exact Hgo|].
  intros e Hg Hnone Hrec Hroom.
  destruct (DeductTokens_frame tok w) as (Fdb & Fdbf & Fnow & Fq & Fout).
  assert (HgD : goroutines (snd (DeductTokens tok w)) = [GoRecordUsage tok]).
  { apply Hiff in Hnone as Hex. destruct Hex as (b & Hget & Hb & Hset).
    rewrite getBalanceFromCache_world, updateBalanceInCache_eq in Hset.
    change (redis_faults (redis_called (EvGet (cache_key tok)) w))
      with (snd (next_fault (redis_faults w))) in Hset.
    destruct (fst (next_fault (snd (next_fault (redis_faults w))))) eqn:Hnf;
      [discriminate|].
    rewrite (DeductTokens_admitted_eq tok w b Hget Hb Hnf). cbn. by rewrite Hg. }
  unfold deduct_recorded, bind.
  destruct (DeductTokens tok w) as [r wD]. cbn [fst snd] in *. subst r.
  rewrite (run_goroutines_one _ wD HgD). cbn zeta.
  assert (Hrec0 : fst (recordTransaction tok (- TokenCost) "USAGE"
                         (set_goroutines [] wD)) = Some e).
  { rewrite <- Hrec. by apply recordTransaction_answer. }
  destruct (goroutine_step_record_error tok (set_goroutines [] wD) e Hrec0)
    as (G1 & G2 & G3 & G4 & G5 & G6 & G7).
  destruct (goroutine_step (GoRecordUsage tok) (set_goroutines [] wD)) as [r1 w1].
  cbn [fst snd] in *. subst r1. unfold ret. cbn [fst snd].
  cbn [stdout redis db now refreshChan goroutines set_goroutines]
    in G2, G3, G4, G5, G6, G7.
  set (w1' := set_goroutines _ w1).
  assert (Hg1 : goroutines w1' = [GoSendRefresh tok]) by (cbn; by rewrite G7).
  rewrite (run_goroutines_one _ w1' Hg1). cbn zeta.
  rewrite goroutine_step_send
    by (change (refreshChan (set_goroutines [] w1')) with (refreshChan w1);
        by rewrite G6, Fq).
  cbn [fst snd].
  split; [done|]. split; [exact Hg1|].
  repeat split;
    cbn [stdout redis db refreshChan goroutines set_goroutines set_refreshChan
         app fst snd w1'];
    rewrite ?G2, ?G3, ?G4, ?G6, ?G7, ?Fout, ?Fq, ?Fdb; done.
Qed.

(** A deduction admitted from the cache while the ledger is down: the
    caller gets [nil] and the cache holds one less; the goroutine prints,
    then queues the token. *)
Lemma DeductTokens_result_witness :
  fst (DeductTokens "tok1" failing_ledger_world) = None /\
  redis (snd (DeductTokens "tok1" failing_ledger_world)) !! cache_key "tok1"
    = Some (mkRedisEntry (5 - TokenCost) (0 + RedisCacheTTL)) /\
  goroutines (snd (DeductTokens "tok1" failing_ledger_world)) = [GoRecordUsage "tok1"] /\
  fst (recordTransaction "tok1" (- TokenCost) "USAGE" failing_ledger_world)
    = Some pgx_unavailable /\
  fst (deduct_recorded "tok1" failing_ledger_world) = None /\
  goroutines (snd (deduct_recorded "tok1" failing_ledger_world)) = [GoSendRefresh "tok1"] /\
  refreshChan (snd (run_goroutines (snd (deduct_recorded "tok1" failing_ledger_world))))
    = ["tok1"].
Proof.
  destruct (DeductTokens_result "tok1" failing_ledger_world)
    as (Hiff & Hok & _ & _ & _ & _ & _ & Hgo).
  assert (Hnone : fst (DeductTokens "tok1" failing_ledger_world) = None).
  { apply Hiff. exists 5. split; [reflexivity|]. split; [discriminate | reflexivity]. }
  split; [exact Hnone|].
  destruct (Hok 5 eq_refl Hnone) as (Hred & Hg & _).
  split; [rewrite Hred; apply lookup_insert_eq|].
  split; [exact Hg|].
  split; [reflexivity|].
  destruct (Hgo pgx_unavailable eq_refl Hnone eq_refl eq_refl)
    as (H1 & H2 & _ & _ & _ & _ & _ & H3 & _).
  split; [exact H1|]. split; [exact H2 | exact H3].
Defined.

(** * The channel of repairs *)







